(** * Position resolution in parameter files and the snippet catalogue

    A shallow embedding of [ParametersPositionContext] (reference-site
    resolution inside a deployment parameter file) and of [SnippetManager]
    (the cached snippet catalogue and its completion adapter), with the
    properties the specification states about them. *)

From Stdlib Require Import ZArith List String Ascii Bool Lia.
Import ListNotations.

(* ================================================================== *)
(** * Part I: spans and the parameter-file position context            *)
(* ================================================================== *)

(** ** [language]: spans over character offsets *)

Module language.

(** The containment modes.  The code under verification only ever passes
    [Contains.extended]; [strict] is plain membership in the half-open
    interval. *)
Inductive Contains : Set := strict | extended.

Record Span : Set := mkSpan { startIndex : Z; length : Z }.

Definition afterEndIndex (s : Span) : Z := (startIndex s + length s)%Z.

(** Modelled from the spec: [Span.contains] lives in [Language.ts], which
    is not part of the sources at hand.  A span is the half-open interval
    [[start, start+length)]; extended containment is inclusive of both
    edges, so a cursor touching either boundary counts as inside. *)
Definition contains (s : Span) (index : Z) (containsBehavior : Contains) : bool :=
  match containsBehavior with
  | strict => (startIndex s <=? index)%Z && (index <? afterEndIndex s)%Z
  | extended => (startIndex s <=? index)%Z && (index <=? afterEndIndex s)%Z
  end.

(** Modelled from the spec: the quote-stripped variant of a span drops the
    surrounding quote characters, one at each end. *)
Definition stripQuotes (s : Span) : Span :=
  mkSpan (startIndex s + 1) (length s - 2).

End language.

(** ** The document model consumed by the position context *)

(** A JSON string literal acting as a name: its raw span (quotes included),
    its unquoted span and its unquoted text.  The position context reads
    these three properties and nothing else. *)
Record NamedValue : Set := mkNamedValue {
  span : language.Span;
  unquotedSpan : language.Span;
  unquotedValue : string
}.

(** A named value produced by the tokenizer: the unquoted span is the raw
    span without its two quote characters. *)
Definition wellQuoted (nv : NamedValue) : Prop :=
  unquotedSpan nv = language.stripQuotes (span nv) /\
  (2 <= language.length (span nv))%Z.

(** A parameter value as written in the parameter file.  It owns a name and
    the value assigned to it; the position context looks at the name only. *)
Record ParameterValueDefinition : Set := mkParameterValueDefinition {
  nameValue : NamedValue
}.

(** [DeploymentParameters]: the parameter-values document.  Only the ordered
    sequence of its parameter-value definitions is consulted here. *)
Record DeploymentParameters : Set := mkDeploymentParameters {
  parameterValueDefinitions : list ParameterValueDefinition
}.

Inductive ReferenceSiteKind : Set := definitionKind | reference.

(** A reference list: the spans, in the queried document, of the references
    to one definition. *)
Definition ReferenceList : Set := list language.Span.

Section Resolution.

(** Parameter definitions belong to the template's object model and are
    opaque here. *)
Context {ParameterDefinition : Type}.

(** Whether a name, as written in the parameter file, designates a given
    definition.  Name matching (and its case sensitivity) is defined by
    the template's scope. *)
Variable refersTo : string -> ParameterDefinition -> bool.

Record TemplateScope : Type := mkTemplateScope {
  getParameterDefinition : string -> option ParameterDefinition
}.

Record DeploymentTemplate : Type := mkDeploymentTemplate {
  topLevelScope : TemplateScope
}.

Record IReferenceSite : Type := mkReferenceSite {
  referenceKind : ReferenceSiteKind;
  unquotedReferenceSpan : language.Span;
  referenceDocument : DeploymentParameters;
  definition : ParameterDefinition;
  definitionDocument : DeploymentTemplate
}.

(** The frozen state of a [ParametersPositionContext]: its document, the
    associated template (possibly absent) and the resolved offset. *)
Record ParametersPositionContext : Type := mkContext {
  document : DeploymentParameters;
  _associatedTemplate : option DeploymentTemplate;
  documentCharacterIndex : Z
}.

Definition insideName (index : Z) (paramValue : ParameterValueDefinition) : bool :=
  language.contains (span (nameValue paramValue)) index language.extended.

(** The [for ... of] loop of [getReferenceSiteInfo], from the point where
    [rest] remains to be visited.  [return] and [break] both leave the
    loop; after [break] the function returns [undefined]. *)
Fixpoint scanParameterValues (this : ParametersPositionContext)
    (tpl : DeploymentTemplate) (rest : list ParameterValueDefinition)
    : option IReferenceSite :=
  match rest with
  | [] => None
  | paramValue :: rest' =>
      if insideName (documentCharacterIndex this) paramValue then
        match getParameterDefinition (topLevelScope tpl)
                (unquotedValue (nameValue paramValue)) with
        | Some paramDef =>
            Some {| referenceKind := reference;
                    unquotedReferenceSpan := unquotedSpan (nameValue paramValue);
                    referenceDocument := document this;
                    definition := paramDef;
                    definitionDocument := tpl |}
        | None => None
        end
      else scanParameterValues this tpl rest'
  end.

Definition getReferenceSiteInfo (this : ParametersPositionContext)
    (_includeDefinition : bool) : option IReferenceSite :=
  match _associatedTemplate this with
  | None => None
  | Some tpl =>
      scanParameterValues this tpl (parameterValueDefinitions (document this))
  end.

(** Modelled from the spec: [DeploymentParameters.findReferencesToDefinition]
    is not part of the sources at hand.  It finds all references to the
    given definition in the document: the names of the parameter values
    that designate it, each reported by its unquoted span, in document
    order. *)
Definition findReferencesToDefinition (doc : DeploymentParameters)
    (def : ParameterDefinition) : ReferenceList :=
  map (fun pv => unquotedSpan (nameValue pv))
      (filter (fun pv => refersTo (unquotedValue (nameValue pv)) def)
              (parameterValueDefinitions doc)).

Definition getReferencesCore (this : ParametersPositionContext)
    : option ReferenceList :=
  let refInfo := getReferenceSiteInfo this false in
  match refInfo with
  | Some site => Some (findReferencesToDefinition (document this) (definition site))
  | None => None
  end.

(** The reference site [getReferenceSiteInfo] builds for the name of [pv]
    once it has resolved to [def]. *)
Definition siteFor (this : ParametersPositionContext) (tpl : DeploymentTemplate)
    (pv : ParameterValueDefinition) (def : ParameterDefinition) : IReferenceSite :=
  {| referenceKind := reference;
     unquotedReferenceSpan := unquotedSpan (nameValue pv);
     referenceDocument := document this;
     definition := def;
     definitionDocument := tpl |}.

(** [pv] is the first definition of [defs], in declared order, whose name
    raw span contains [index] under extended containment. *)
Definition firstContaining (index : Z) (defs : list ParameterValueDefinition)
    (pv : ParameterValueDefinition) : Prop :=
  exists before after,
    defs = before ++ pv :: after /\
    Forall (fun q => insideName index q = false) before /\
    insideName index pv = true.

End Resolution.

Arguments TemplateScope : clear implicits.
Arguments DeploymentTemplate : clear implicits.
Arguments IReferenceSite : clear implicits.
Arguments ParametersPositionContext : clear implicits.

Section DocumentReferences.

Context {ParameterDefinition : Type}.

(** Parameter definitions are objects of the template: two of them are the
    same object or they are not. *)
Variable sameDefinition : forall d d' : ParameterDefinition, {d = d'} + {d <> d'}.

(** Modelled from the spec: a name written in the parameter file is a
    reference to a parameter definition when the associated template's
    top-level scope, looked up by that unquoted name, gives that
    definition. *)
Definition designates (tpl : DeploymentTemplate ParameterDefinition)
    (n : string) (def : ParameterDefinition) : bool :=
  match getParameterDefinition (topLevelScope tpl) n with
  | Some found => if sameDefinition found def then true else false
  | None => false
  end.

(** The references the document of a position context can have: those to
    the definitions of the template associated with it. *)
Definition documentRefersTo (this : ParametersPositionContext ParameterDefinition)
    : string -> ParameterDefinition -> bool :=
  match _associatedTemplate this with
  | Some tpl => designates tpl
  | None => fun _ _ => false
  end.

End DocumentReferences.

(* ================================================================== *)
(** * Part II: the snippet catalogue and its completion adapter        *)
(* ================================================================== *)

(** ** Strings *)

Open Scope string_scope.

(** The double-quote character, and the one-character string holding it. *)
Definition dquoteChar : ascii := ascii_of_nat 34.
Definition dquote : string := String dquoteChar EmptyString.

(** [s.startsWith(p)] *)
Definition startsWith (s p : string) : bool := String.prefix p s.

(** [lines.join(sep)] *)
Fixpoint join (sep : string) (lines : list string) : string :=
  match lines with
  | [] => EmptyString
  | [l] => l
  | l :: rest => l ++ sep ++ join sep rest
  end.

Definition newline : string := String (ascii_of_nat 10) EmptyString.

(** Strings stand for the source's strings in UTF-8, the encoding of the
    string literals of this file: a character below U+0080 is one byte, and
    the other characters of the basic plane take two or three. *)
Definition utf8 (codePoint : N) : string :=
  if (codePoint <? 128)%N then
    String (ascii_of_N codePoint) EmptyString
  else if (codePoint <? 2048)%N then
    String (ascii_of_N (192 + codePoint / 64))
      (String (ascii_of_N (128 + codePoint mod 64)) EmptyString)
  else
    String (ascii_of_N (224 + codePoint / 4096))
      (String (ascii_of_N (128 + (codePoint / 64) mod 64))
         (String (ascii_of_N (128 + codePoint mod 64)) EmptyString)).

(** The class [\s] of regular expressions: the white-space characters TAB,
    VT, FF, SP, NBSP, ZWNBSP and the space separators U+1680, U+2000 to
    U+200A, U+202F, U+205F, U+3000, and the line terminators LF, CR, LS
    (U+2028), PS (U+2029). *)
Definition whiteSpaceCodePoints : list N :=
  [ 9; 10; 11; 12; 13; 32; 160; 5760;
    8192; 8193; 8194; 8195; 8196; 8197; 8198; 8199; 8200; 8201; 8202;
    8232; 8233; 8239; 8287; 12288; 65279 ]%N.

Definition whiteSpaceChars : list string := List.map utf8 whiteSpaceCodePoints.

Fixpoint dropPrefix (p s : string) : option string :=
  match p, s with
  | EmptyString, _ => Some s
  | String a p', String b s' => if Ascii.eqb a b then dropPrefix p' s' else None
  | String _ _, EmptyString => None
  end.

(** [s] without the first of [chars] it starts with, if it starts with one. *)
Fixpoint dropAny (chars : list string) (s : string) : option string :=
  match chars with
  | [] => None
  | c :: chars' =>
      match dropPrefix c s with
      | Some rest => Some rest
      | None => dropAny chars' s
      end
  end.

(** [\s*] at the start of [s]: white-space characters are dropped as long
    as there is one; [fuel] bounds the number of characters dropped. *)
Fixpoint skipWhiteSpaceUpTo (fuel : nat) (s : string) : string :=
  match fuel with
  | O => s
  | S fuel' =>
      match dropAny whiteSpaceChars s with
      | Some rest => skipWhiteSpaceUpTo fuel' rest
      | None => s
      end
  end.

Definition skipWhiteSpace (s : string) : string :=
  skipWhiteSpaceUpTo (String.length s) s.

Definition apiVersionKey : string := dquote ++ "apiVersion" ++ dquote.

(** Does the regular expression ["apiVersion"\s*:] match at the very start
    of [s]? *)
Definition matchesApiVersionHere (s : string) : bool :=
  match dropPrefix apiVersionKey s with
  | Some rest => startsWith (skipWhiteSpace rest) ":"
  | None => false
  end.

(** [!!line.match(/"apiVersion"\s*:/)]: a match anywhere in the line. *)
Fixpoint matchesApiVersion (line : string) : bool :=
  matchesApiVersionHere line ||
  match line with
  | EmptyString => false
  | String _ line' => matchesApiVersion line'
  end.

(** ** Snippet contexts and snippets *)

Definition SnippetContext : Set := string.

Module KnownSnippetContexts.
Definition empty : SnippetContext := "empty".
Definition resources : SnippetContext := "resources".
Definition parameterValues : SnippetContext := "parameterValues".
End KnownSnippetContexts.

(** A record of the snippet file.  The file may leave [context] out, which
    [convertSnippet] checks for. *)
Module FromFile.
Record ISnippetDefinitionFromFile : Set := mk {
  prefix : string;
  body : list string;
  description : string;
  context : option string
}.
End FromFile.

Record ISnippetInternal : Set := mkSnippet {
  name : string;
  prefix : string;
  description : string;
  insertText : string;
  context : option SnippetContext
}.

(** [snippet.context === context] *)
Definition doesSnippetSupportContext (snippet : ISnippetInternal)
    (context' : SnippetContext) : bool :=
  match context snippet with
  | Some c => String.eqb c context'
  | None => false
  end.

(** [window.showWarningMessage]: the messages shown, in order. *)
Definition Warnings : Set := list string.

Definition convertSnippet (snippetName : string)
    (snippetFromFile : FromFile.ISnippetDefinitionFromFile)
    : ISnippetInternal * Warnings :=
  let context' := FromFile.context snippetFromFile in
  let w1 :=
    match context' with
    | None => ["Snippet " ++ dquote ++ snippetName ++ dquote
               ++ " has no context specified"]
    | Some _ => []
    end in
  let body' := join newline (FromFile.body snippetFromFile) in
  let snippet :=
    {| name := snippetName;
       prefix := FromFile.prefix snippetFromFile;
       description := FromFile.description snippetFromFile;
       insertText := body';
       context := context' |} in
  let looksLikeResource := existsb matchesApiVersion (FromFile.body snippetFromFile) in
  let isResource := doesSnippetSupportContext snippet KnownSnippetContexts.resources in
  let w2 :=
    if isResource then
      if negb looksLikeResource then
        ["Snippet " ++ dquote ++ snippetName ++ dquote
         ++ " is marked with the resources context but doesn't looke like a resource"]
      else []
    else
      if looksLikeResource then
        ["Snippet " ++ dquote ++ snippetName ++ dquote
         ++ " looks like a resource but isn't supported in the resources context"]
      else [] in
  (snippet, (w1 ++ w2)%list).

(** ** [Map<string, ISnippetInternal>] *)

(** A JavaScript [Map] keeps its entries in insertion order; [set] on a key
    already present replaces the value in place. *)
Definition SnippetMap : Set := list (string * ISnippetInternal).

Fixpoint Map_set (map : SnippetMap) (key : string) (value : ISnippetInternal)
    : SnippetMap :=
  match map with
  | [] => [(key, value)]
  | (k, v) :: map' =>
      if String.eqb k key then (k, value) :: map'
      else (k, v) :: Map_set map' key value
  end.

Definition Map_values (map : SnippetMap) : list ISnippetInternal := List.map snd map.

(** The object decoded from the snippet file: its own properties, in the
    order [Object.getOwnPropertyNames] lists them, each with its value
    [snippets[name]]. *)
Definition SnippetsObject : Set := list (string * FromFile.ISnippetDefinitionFromFile).

(** Property names of an object are pairwise distinct. *)
Definition ownPropertyNames (snippets : SnippetsObject) : list string :=
  List.map fst snippets.

(** ** Promises *)

Inductive Error : Set :=
| IOError (message : string)
| SyntaxError (message : string).

Inductive PromiseState (T : Type) : Type :=
| Pending
| Fulfilled (value : T)
| Rejected (reason : Error).

Arguments Pending {T}.
Arguments Fulfilled {T} value.
Arguments Rejected {T} reason.

(** The outcome of a computation that either returns or throws. *)
Inductive Outcome (T : Type) : Type :=
| Returns (value : T)
| Throws (reason : Error).

Arguments Returns {T} value.
Arguments Throws {T} reason.

Definition PromiseId : Set := nat.

(** ** Completion items *)

Module Completion.

(** Modelled from the spec: the [Completion] module is not part of the
    sources at hand.  An item records the options it was constructed from;
    snippets get the fixed snippet kind and the low display priority, which
    sorts them below ordinary completions at the same span. *)
Inductive CompletionKind : Set := Snippet | OtherKind (tag : string).

Inductive CompletionPriority : Set := normal | high | low.

Record Item : Set := mkItem {
  label : string;
  snippetName : string;
  detail : string;
  insertText : string;
  span : language.Span;
  kind : CompletionKind;
  priority : CompletionPriority
}.

End Completion.

(** ** [SnippetManager] *)

(** The manager, together with the part of the environment its operations
    act on: the promises its loader has created (a promise is named by its
    position in [promises]), the number of reads of the snippet file issued
    so far, and the warnings shown. *)
Record SnippetManager : Set := mkManager {
  _snippetMap : option PromiseId;
  promises : list (PromiseState SnippetMap);
  fileReads : nat;
  warningsShown : Warnings
}.

(** [new SnippetManager(path)] *)
Definition newSnippetManager : SnippetManager :=
  {| _snippetMap := None; promises := []; fileReads := 0; warningsShown := [] |}.

Definition promiseState (this : SnippetManager) (p : PromiseId)
    : PromiseState SnippetMap :=
  nth p (promises this) Pending.

Fixpoint setNth {A : Type} (n : nat) (x : A) (l : list A) : list A :=
  match l, n with
  | [], _ => []
  | _ :: l', O => x :: l'
  | y :: l', S n' => y :: setNth n' x l'
  end.

(** An [async] call in flight: it ran up to its [await], and [andThen] says
    how the promise it returned follows the promise it awaits. *)
Record Async (T : Type) : Type := mkAsync {
  awaits : PromiseId;
  andThen : PromiseState SnippetMap -> PromiseState T
}.

Arguments mkAsync {T} awaits andThen.
Arguments awaits {T} _.
Arguments andThen {T} _ _.

(** The state, as seen through manager state [this], of the promise an
    [async] call returned. *)
Definition poll {T : Type} (call : Async T) (this : SnippetManager) : PromiseState T :=
  andThen call (promiseState this (awaits call)).

(** The rest of an [async] body after [await]: it runs on fulfilment and a
    rejection passes through. *)
Definition thenReturn {A T : Type} (k : A -> T) (s : PromiseState A) : PromiseState T :=
  match s with
  | Pending => Pending
  | Fulfilled v => Fulfilled (k v)
  | Rejected e => Rejected e
  end.

(** Modelled from the spec: [callWithTelemetryAndErrorHandling] comes from
    the extension UI library.  It runs the callback and hands back its
    result; a failure of the callback is handled there and degrades to
    [undefined] instead of propagating. *)
Definition callWithTelemetryAndErrorHandling {T : Type} (callback : PromiseState T)
    : PromiseState (option T) :=
  match callback with
  | Pending => Pending
  | Fulfilled v => Fulfilled (Some v)
  | Rejected _ => Fulfilled None
  end.

(** [value ?? fallback] *)
Definition nullish {T : Type} (value : option T) (fallback : T) : T :=
  match value with
  | Some v => v
  | None => fallback
  end.

Section Snippets.

(** The comment stripper and the JSON decoder are consumed as they are;
    decoding throws on malformed input. *)
Variable stripJsonComments : string -> string.
Variable JSON_parse : string -> Outcome SnippetsObject.

(** The host product name, from [constants]. *)
Variable extensionName : string.

(** The loop of the loader: [map.set(name, convertSnippet(name, snippets[name]))]
    for every own property name not starting with [$]. *)
Fixpoint convertAll (entries : SnippetsObject) (map : SnippetMap) (shown : Warnings)
    : SnippetMap * Warnings :=
  match entries with
  | [] => (map, shown)
  | (name', snippetFromFile) :: rest =>
      let (snippet, w) := convertSnippet name' snippetFromFile in
      convertAll rest (Map_set map name' snippet) (shown ++ w)%list
  end.

Definition notReserved (entry : string * FromFile.ISnippetDefinitionFromFile) : bool :=
  negb (startsWith (fst entry) "$").

(** The body of the loader from the point where the file read has
    completed, with the content read or the failure of the read. *)
Definition loadSnippets (read : Outcome string) : Outcome SnippetMap * Warnings :=
  match read with
  | Throws e => (Throws e, [])
  | Returns content =>
      let preprocessed := stripJsonComments content in
      match JSON_parse preprocessed with
      | Throws e => (Throws e, [])
      | Returns snippets =>
          let (map, w) := convertAll (filter notReserved snippets) [] [] in
          (Returns map, w)
      end
  end.

(** The loader up to its [await]: it issues the read of the snippet file
    and returns a fresh pending promise. *)
Definition startLoad (this : SnippetManager) : PromiseId * SnippetManager :=
  (List.length (promises this),
   {| _snippetMap := _snippetMap this;
      promises := (promises this ++ [Pending])%list;
      fileReads := S (fileReads this);
      warningsShown := warningsShown this |}).

(** Modelled from the spec: [CachedPromise] is not part of the sources at
    hand.  It is a single-flight memoized future: the first call creates the
    promise and memoizes it, later calls get the memoized promise, settled
    or not. *)
Definition getOrCachePromise
    (createPromise : SnippetManager -> PromiseId * SnippetManager)
    (this : SnippetManager) : PromiseId * SnippetManager :=
  match _snippetMap this with
  | Some p => (p, this)
  | None =>
      let (p, this') := createPromise this in
      (p, {| _snippetMap := Some p;
             promises := promises this';
             fileReads := fileReads this';
             warningsShown := warningsShown this' |})
  end.

(** Modelled from the spec: a failed load clears the memoization, so that
    the next query retries; the memoized promise is forgotten only if it is
    the one that failed. *)
Definition forgetIfCached (p : PromiseId) (cached : option PromiseId)
    : option PromiseId :=
  match cached with
  | Some q => if Nat.eqb q p then None else Some q
  | None => None
  end.

Definition getMap (this : SnippetManager) : PromiseId * SnippetManager :=
  getOrCachePromise startLoad this.

(** The read issued for promise [p] completes: the loader resumes, and its
    promise is fulfilled with the map or rejected. *)
Definition fileReadCompletes (p : PromiseId) (read : Outcome string)
    (this : SnippetManager) : SnippetManager :=
  match nth_error (promises this) p with
  | Some Pending =>
      match loadSnippets read with
      | (Returns map, w) =>
          {| _snippetMap := _snippetMap this;
             promises := setNth p (Fulfilled map) (promises this);
             fileReads := fileReads this;
             warningsShown := (warningsShown this ++ w)%list |}
      | (Throws e, w) =>
          {| _snippetMap := forgetIfCached p (_snippetMap this);
             promises := setNth p (Rejected e) (promises this);
             fileReads := fileReads this;
             warningsShown := (warningsShown this ++ w)%list |}
      end
  | _ => this
  end.

Definition getSnippets (context' : SnippetContext) (this : SnippetManager)
    : Async (list ISnippetInternal) * SnippetManager :=
  let (p, this') := getMap this in
  (mkAsync p
     (thenReturn (fun map =>
        filter (fun s => doesSnippetSupportContext s context') (Map_values map))),
   this').

(** The loop over [map.entries()], pushing one item per supported snippet. *)
Fixpoint pushItems (context' : SnippetContext) (span : language.Span)
    (addDoubleQuotes : bool) (entries : SnippetMap) (items : list Completion.Item)
    : list Completion.Item :=
  match entries with
  | [] => items
  | entry :: rest =>
      let snippet := snd entry in
      if doesSnippetSupportContext snippet context' then
        let name' := fst entry in
        let detail := description snippet ++ " (" ++ extensionName ++ ")" in
        let label := prefix snippet in
        let label :=
          if addDoubleQuotes && negb (startsWith label dquote)
          then dquote ++ label ++ dquote
          else label in
        pushItems context' span addDoubleQuotes rest
          (items ++ [ {| Completion.label := "{" ++ label ++ "}";
                         Completion.snippetName := name';
                         Completion.detail := detail;
                         Completion.insertText := insertText snippet;
                         Completion.span := span;
                         Completion.kind := Completion.Snippet;
                         Completion.priority := Completion.low |} ])%list
      else pushItems context' span addDoubleQuotes rest items
  end.

Definition getSnippetsAsCompletionItems (context' : SnippetContext)
    (span : language.Span) (_triggerCharacter : option string)
    (addDoubleQuotes : bool) (this : SnippetManager)
    : Async (list Completion.Item) * SnippetManager :=
  let (p, this') := getMap this in
  (mkAsync p
     (fun awaited =>
        thenReturn (fun result => nullish result [])
          (callWithTelemetryAndErrorHandling
             (thenReturn (fun map => pushItems context' span addDoubleQuotes map [])
                         awaited))),
   this').

(** ** Runs of the manager *)

(** What happens to a manager over time: a caller invokes one of the two
    queries, or a read issued earlier completes. *)
Inductive Event : Set :=
| CallGetSnippets (context' : SnippetContext)
| CallGetSnippetsAsCompletionItems (context' : SnippetContext)
    (span : language.Span) (_triggerCharacter : option string)
    (addDoubleQuotes : bool)
| FileRead (p : PromiseId) (read : Outcome string).

Definition step (this : SnippetManager) (ev : Event) : SnippetManager :=
  match ev with
  | CallGetSnippets context' => snd (getSnippets context' this)
  | CallGetSnippetsAsCompletionItems context' span trigger addDoubleQuotes =>
      snd (getSnippetsAsCompletionItems context' span trigger addDoubleQuotes this)
  | FileRead p read => fileReadCompletes p read this
  end.

Definition run (this : SnippetManager) (evs : list Event) : SnippetManager :=
  fold_left step evs this.

(** The promise a query awaits. *)
Definition handleOf (this : SnippetManager) (ev : Event) : option PromiseId :=
  match ev with
  | CallGetSnippets context' => Some (awaits (fst (getSnippets context' this)))
  | CallGetSnippetsAsCompletionItems context' span trigger addDoubleQuotes =>
      Some (awaits (fst (getSnippetsAsCompletionItems context' span trigger
                           addDoubleQuotes this)))
  | FileRead _ _ => None
  end.

(** The promises awaited by the queries of a run, in order. *)
Fixpoint handles (this : SnippetManager) (evs : list Event) : list PromiseId :=
  match evs with
  | [] => []
  | ev :: evs' =>
      match handleOf this ev with
      | Some p => p :: handles (step this ev) evs'
      | None => handles (step this ev) evs'
      end
  end.

(** The load triggered by a completed read succeeds. *)
Definition loadSucceeds (read : Outcome string) : bool :=
  match fst (loadSnippets read) with
  | Returns _ => true
  | Throws _ => false
  end.

(** No load of the run fails. *)
Definition eventOk (ev : Event) : Prop :=
  match ev with
  | FileRead _ read => loadSucceeds read = true
  | _ => True
  end.

Definition noFailedLoad (evs : list Event) : Prop := Forall eventOk evs.

End Snippets.

(** ** Notions used to state the properties of the catalogue *)

(** The display label the specification asks for: the snippet's prefix,
    wrapped in double quotes when quote mode is on and the prefix does not
    already start with a double quote. *)
Definition specifiedLabel (quoteMode : bool) (prefix' : string) : string :=
  if quoteMode && negb (startsWith prefix' dquote)
  then dquote ++ prefix' ++ dquote
  else prefix'.

(** The snippet the specification asks for from one record of the file: the
    record's fields, with the body lines joined by newlines. *)
Definition specifiedSnippet (entry : string * FromFile.ISnippetDefinitionFromFile)
    : string * ISnippetInternal :=
  (fst entry,
   {| name := fst entry;
      prefix := FromFile.prefix (snd entry);
      description := FromFile.description (snd entry);
      insertText := join newline (FromFile.body (snd entry));
      context := FromFile.context (snd entry) |}).

Definition isQuery (ev : Event) : bool :=
  match ev with
  | FileRead _ _ => false
  | _ => true
  end.

(** A manager whose one and only load was started by its first query and
    has not failed: one read issued, one promise, memoized. *)
Definition singleLoad (this : SnippetManager) : Prop :=
  _snippetMap this = Some 0%nat /\
  fileReads this = 1%nat /\
  exists state, promises this = [state] /\ forall e, state <> Rejected e.

(** ** Notions used to state the properties of conversion and loading *)

(** The three advisory messages of [convertSnippet]. *)
Definition noContextWarning (snippetName : string) : string :=
  "Snippet " ++ dquote ++ snippetName ++ dquote ++ " has no context specified".

Definition notLikeResourceWarning (snippetName : string) : string :=
  "Snippet " ++ dquote ++ snippetName ++ dquote
  ++ " is marked with the resources context but doesn't looke like a resource".

Definition likeResourceWarning (snippetName : string) : string :=
  "Snippet " ++ dquote ++ snippetName ++ dquote
  ++ " looks like a resource but isn't supported in the resources context".

(** [body.some(line => !!line.match(/"apiVersion"\s*:/))] *)
Definition looksLikeResource (snippetFromFile : FromFile.ISnippetDefinitionFromFile)
    : bool :=
  existsb matchesApiVersion (FromFile.body snippetFromFile).

(** A string made of white space only: the encoding of a sequence of
    white-space characters. *)
Definition allWhiteSpace (ws : string) : Prop :=
  exists codePoints,
    Forall (fun codePoint => In codePoint whiteSpaceCodePoints) codePoints /\
    ws = fold_right append EmptyString (List.map utf8 codePoints).

(** [map.keys()] *)
Definition Map_keys (map : SnippetMap) : list string := List.map fst map.

(** The completion item the loop of [getSnippetsAsCompletionItems] builds
    for one supported entry of the map. *)
Definition itemFor (extensionName : string) (span : language.Span)
    (addDoubleQuotes : bool) (entry : string * ISnippetInternal) : Completion.Item :=
  {| Completion.label :=
       "{" ++ (if addDoubleQuotes && negb (startsWith (prefix (snd entry)) dquote)
               then dquote ++ prefix (snd entry) ++ dquote
               else prefix (snd entry)) ++ "}";
     Completion.snippetName := fst entry;
     Completion.detail := description (snd entry) ++ " (" ++ extensionName ++ ")";
     Completion.insertText := insertText (snd entry);
     Completion.span := span;
     Completion.kind := Completion.Snippet;
     Completion.priority := Completion.low |}.

(** The position context of a document at an offset, with a template. *)
Definition contextAt {ParameterDefinition : Type} (doc : DeploymentParameters)
    (tpl : DeploymentTemplate ParameterDefinition) (index : Z)
    : ParametersPositionContext ParameterDefinition :=
  {| document := doc; _associatedTemplate := Some tpl;
     documentCharacterIndex := index |}.

(* ================================================================== *)
(** * Part III: sample documents                                       *)
(* ================================================================== *)

(** A parameter file with two parameter values, ["location"] at offsets
    16..26 and ["orphan"] at offsets 50..58, and a template that declares
    [location] only.  Parameter definitions are represented by a tag. *)
Definition locationName : NamedValue :=
  {| span := language.mkSpan 16 10;
     unquotedSpan := language.mkSpan 17 8;
     unquotedValue := "location" |}.

Definition orphanName : NamedValue :=
  {| span := language.mkSpan 50 8;
     unquotedSpan := language.mkSpan 51 6;
     unquotedValue := "orphan" |}.

Definition sampleParameters : DeploymentParameters :=
  {| parameterValueDefinitions :=
       [ {| nameValue := locationName |}; {| nameValue := orphanName |} ] |}.

Definition sampleScope : TemplateScope string :=
  {| getParameterDefinition := fun n =>
       if String.eqb n "location" then Some "definition of location" else None |}.

Definition sampleTemplate : DeploymentTemplate string :=
  {| topLevelScope := sampleScope |}.

Definition sampleContext (index : Z) : ParametersPositionContext string :=
  {| document := sampleParameters;
     _associatedTemplate := Some sampleTemplate;
     documentCharacterIndex := index |}.

(** A document whose name spans touch: ["orphan"] at 50..58 immediately
    followed by a name ["location"] at 58..68.  Offset 58 is inside both
    under extended containment. *)
Definition touchingName : NamedValue :=
  {| span := language.mkSpan 58 10;
     unquotedSpan := language.mkSpan 59 8;
     unquotedValue := "location" |}.

Definition touchingContext : ParametersPositionContext string :=
  {| document :=
       {| parameterValueDefinitions :=
            [ {| nameValue := orphanName |}; {| nameValue := touchingName |} ] |};
     _associatedTemplate := Some sampleTemplate;
     documentCharacterIndex := 58 |}.

(** The fragment source of the specification's example, once decoded: one
    record named [arm-vnet]. *)
Definition vnetBodyLine : string :=
  "{ " ++ dquote ++ "apiVersion" ++ dquote ++ ": "
       ++ dquote ++ "2020-01-01" ++ dquote ++ " }".

Definition vnetRecord : FromFile.ISnippetDefinitionFromFile :=
  {| FromFile.prefix := "vnet";
     FromFile.body := [vnetBodyLine];
     FromFile.description := "VNet";
     FromFile.context := Some "resources" |}.

Definition vnetSource : SnippetsObject := [("arm-vnet", vnetRecord)].

Definition vnetSnippet : ISnippetInternal :=
  {| name := "arm-vnet";
     prefix := "vnet";
     description := "VNet";
     insertText := vnetBodyLine;
     context := Some "resources" |}.

(** A decoder for the samples: the text [vnet] stands for the example's
    fragment source, any other text is malformed. *)
Definition sampleStrip (text : string) : string := text.

Definition sampleParse (text : string) : Outcome SnippetsObject :=
  if String.eqb text "vnet" then Returns vnetSource
  else Throws (SyntaxError "Unexpected token").

Definition sampleExtensionName : string := "Azure Resource Manager Tools".

(** A manager that was queried twice while its load was in flight and then
    saw the read complete with the example's source. *)
Definition sampleRun : list Event :=
  [ CallGetSnippets "resources";
    CallGetSnippetsAsCompletionItems "resources" (language.mkSpan 3 0) None true;
    FileRead 0%nat (Returns "vnet") ].

Definition loadedManager : SnippetManager :=
  run sampleStrip sampleParse sampleExtensionName newSnippetManager sampleRun.

(** A manager whose first query is still waiting for the file. *)
Definition waitingManager : SnippetManager :=
  run sampleStrip sampleParse sampleExtensionName newSnippetManager
    [CallGetSnippets "resources"].

(** A snippet file with a reserved key, a resource tagged as a parameter
    value, and a record left without context. *)
Definition schemaRecord : FromFile.ISnippetDefinitionFromFile :=
  {| FromFile.prefix := "";
     FromFile.body := [];
     FromFile.description := "";
     FromFile.context := None |}.

Definition mistaggedRecord : FromFile.ISnippetDefinitionFromFile :=
  {| FromFile.prefix := "nsg";
     FromFile.body := ["{"; vnetBodyLine; "}"];
     FromFile.description := "Network Security Group";
     FromFile.context := Some "parameterValues" |}.

Definition untaggedRecord : FromFile.ISnippetDefinitionFromFile :=
  {| FromFile.prefix := dquote ++ "new-parameter-value" ++ dquote;
     FromFile.body := ["$1"];
     FromFile.description := "Parameter value";
     FromFile.context := None |}.

Definition mixedSource : SnippetsObject :=
  [ ("$schema", schemaRecord);
    ("arm-vnet", vnetRecord);
    ("arm-nsg", mistaggedRecord);
    ("new-parameter-value", untaggedRecord) ].

Definition mixedParse (text : string) : Outcome SnippetsObject :=
  if String.eqb text "mixed" then Returns mixedSource
  else Throws (SyntaxError "Unexpected token").

(** What the resource of the mixed file must be loaded as: its three body
    lines separated by line feeds. *)
Definition nsgSnippet : ISnippetInternal :=
  {| name := "arm-nsg";
     prefix := "nsg";
     description := "Network Security Group";
     insertText :=
       String "{" (String "010" (vnetBodyLine ++ String "010" (String "}" EmptyString)));
     context := Some "parameterValues" |}.

(* ================================================================== *)
(** * Part IV: properties of the position context                      *)
(* ================================================================== *)

Section ResolutionProperties.

Context {ParameterDefinition : Type}.

Implicit Types (this : ParametersPositionContext ParameterDefinition)
               (tpl : DeploymentTemplate ParameterDefinition)
               (pv q : ParameterValueDefinition)
               (defs before after : list ParameterValueDefinition).

Lemma scan_outside this tpl defs :
  (forall pv, In pv defs -> insideName (documentCharacterIndex this) pv = false) ->
  scanParameterValues this tpl defs = None.
Proof.
  induction defs as [|q defs IH]; intros Hout; simpl.
  - reflexivity.
  - rewrite (Hout q (or_introl eq_refl)).
    apply IH. intros pv Hin. apply Hout. now right.
Qed.

Lemma scan_first this tpl before pv after :
  Forall (fun q => insideName (documentCharacterIndex this) q = false) before ->
  insideName (documentCharacterIndex this) pv = true ->
  scanParameterValues this tpl (before ++ pv :: after) =
  match getParameterDefinition (topLevelScope tpl) (unquotedValue (nameValue pv)) with
  | Some d => Some (siteFor this tpl pv d)
  | None => None
  end.
Proof.
  intros Hbefore Hpv.
  induction Hbefore as [|q before Hq _ IH]; simpl.
  - now rewrite Hpv.
  - now rewrite Hq.
Qed.

(** Either no definition contains the offset, or there is a first one. *)
Lemma first_containing_dec (index : Z) defs :
  (forall pv, In pv defs -> insideName index pv = false) \/
  (exists pv, firstContaining index defs pv).
Proof.
  induction defs as [|q defs IH].
  - left. intros pv [].
  - destruct (insideName index q) eqn:Hq.
    + right. exists q, [], defs. repeat split; auto.
    + destruct IH as [Hnone | (pv & before & after & Heq & Hbefore & Hpv)].
      * left. intros pv [<- | Hin]; auto.
      * right. exists pv, (q :: before), after. subst defs.
        repeat split; auto.
Qed.

Lemma first_containing_in (index : Z) defs pv :
  firstContaining index defs pv -> In pv defs /\ insideName index pv = true.
Proof.
  intros (before & after & -> & _ & Hpv). split; [|exact Hpv].
  apply in_or_app. right. now left.
Qed.

(** When a single definition contains the offset, as in a document whose
    name spans do not touch, that definition is the first containing one. *)
Lemma sole_containing_is_first (index : Z) defs pv :
  In pv defs -> insideName index pv = true ->
  (forall q, In q defs -> insideName index q = true -> q = pv) ->
  firstContaining index defs pv.
Proof.
  intros Hin Hpv Hsole.
  destruct (first_containing_dec index defs) as [Hnone | (q & Hq)].
  - rewrite (Hnone pv Hin) in Hpv. discriminate.
  - destruct (first_containing_in index defs q Hq) as [Hqin Hqc].
    now rewrite <- (Hsole q Hqin Hqc).
Qed.

(** The whole function, on a context with a template and an offset inside
    some name: the outcome is decided by the first containing definition. *)
Lemma getReferenceSiteInfo_first this (includeDefinition : bool) tpl pv :
  _associatedTemplate this = Some tpl ->
  firstContaining (documentCharacterIndex this)
    (parameterValueDefinitions (document this)) pv ->
  getReferenceSiteInfo this includeDefinition =
  match getParameterDefinition (topLevelScope tpl) (unquotedValue (nameValue pv)) with
  | Some d => Some (siteFor this tpl pv d)
  | None => None
  end.
Proof.
  intros Htpl (before & after & Heq & Hbefore & Hpv).
  unfold getReferenceSiteInfo. rewrite Htpl, Heq.
  now apply scan_first.
Qed.

(** C1.  [getReferenceSiteInfo] returns absent when no associated template
    is linked, and absent when the offset lies outside every parameter-name
    raw span.  When the offset lies inside a name (extended containment,
    both boundaries included), it returns a site exactly when the template's
    top-level scope has a parameter definition for the unquoted name of the
    matched definition, and the site is then the reference site made of the
    name's unquoted span, this document, the definition found and the
    template.  The matched definition is the first one, in declared order,
    containing the offset; it is any containing definition when only one
    contains the offset. *)
Theorem getReferenceSiteInfo_resolves this (includeDefinition : bool) :
  let index := documentCharacterIndex this in
  let defs := parameterValueDefinitions (document this) in
  (_associatedTemplate this = None ->
     getReferenceSiteInfo this includeDefinition = None) /\
  ((forall pv, In pv defs -> insideName index pv = false) ->
     getReferenceSiteInfo this includeDefinition = None) /\
  (forall tpl pv,
     _associatedTemplate this = Some tpl ->
     firstContaining index defs pv \/
     (In pv defs /\ insideName index pv = true /\
      forall q, In q defs -> insideName index q = true -> q = pv) ->
     ((exists site, getReferenceSiteInfo this includeDefinition = Some site) <->
      (exists d, getParameterDefinition (topLevelScope tpl)
                   (unquotedValue (nameValue pv)) = Some d)) /\
     (forall d,
        getParameterDefinition (topLevelScope tpl)
          (unquotedValue (nameValue pv)) = Some d ->
        getReferenceSiteInfo this includeDefinition =
        Some {| referenceKind := reference;
                unquotedReferenceSpan := unquotedSpan (nameValue pv);
                referenceDocument := document this;
                definition := d;
                definitionDocument := tpl |})).
Proof.
  intros index defs. split; [|split].
  - unfold getReferenceSiteInfo. now intros ->.
  - intros Hout. unfold getReferenceSiteInfo.
    destruct (_associatedTemplate this); [|reflexivity].
    now apply scan_outside.
  - intros tpl pv Htpl Hpv.
    assert (Hfirst : firstContaining index defs pv).
    { destruct Hpv as [Hf | (Hin & Hc & Hsole)]; [exact Hf|].
      now apply sole_containing_is_first. }
    rewrite (getReferenceSiteInfo_first this includeDefinition tpl pv Htpl Hfirst).
    destruct (getParameterDefinition _ _) as [d|]; split.
    + split; intros _; eauto.
    + now intros d' [= ->].
    + split; intros [x Hx]; discriminate.
    + discriminate.
Qed.

(** C7.  The scan stops at the first definition whose name raw span contains
    the cursor, whatever the outcome: when that name has no parameter
    definition in the template's scope the result is absent, and the
    definitions declared after it are never examined, the scan giving the
    same result whatever follows. *)
Theorem getReferenceSiteInfo_stops_at_first_containing
    this (includeDefinition : bool) tpl before pv after :
  _associatedTemplate this = Some tpl ->
  parameterValueDefinitions (document this) = (before ++ pv :: after)%list ->
  Forall (fun q => insideName (documentCharacterIndex this) q = false) before ->
  insideName (documentCharacterIndex this) pv = true ->
  (getParameterDefinition (topLevelScope tpl) (unquotedValue (nameValue pv)) = None ->
   getReferenceSiteInfo this includeDefinition = None) /\
  (forall after',
     scanParameterValues this tpl (before ++ pv :: after') =
     getReferenceSiteInfo this includeDefinition).
Proof.
  intros Htpl Hdefs Hbefore Hpv.
  assert (Hfirst : firstContaining (documentCharacterIndex this)
                     (parameterValueDefinitions (document this)) pv).
  { exists before, after. auto. }
  rewrite (getReferenceSiteInfo_first this includeDefinition tpl pv Htpl Hfirst).
  split.
  - now intros ->.
  - intros after'. now apply scan_first.
Qed.

(** C9.  The [includeDefinition] argument has no influence on the result of
    [getReferenceSiteInfo]: the runs with [true] and with [false] agree on
    every context. *)
Theorem getReferenceSiteInfo_ignores_includeDefinition this :
  getReferenceSiteInfo this true = getReferenceSiteInfo this false.
Proof. reflexivity. Qed.

(** A site returned by [getReferenceSiteInfo] comes from a definition whose
    name raw span contains the cursor. *)
Lemma getReferenceSiteInfo_site_origin this (includeDefinition : bool) site :
  getReferenceSiteInfo this includeDefinition = Some site ->
  exists tpl pv d,
    _associatedTemplate this = Some tpl /\
    firstContaining (documentCharacterIndex this)
      (parameterValueDefinitions (document this)) pv /\
    getParameterDefinition (topLevelScope tpl) (unquotedValue (nameValue pv)) = Some d /\
    site = siteFor this tpl pv d.
Proof.
  intros Hsite.
  destruct (_associatedTemplate this) as [tpl|] eqn:Htpl;
    [|unfold getReferenceSiteInfo in Hsite; rewrite Htpl in Hsite; discriminate].
  destruct (first_containing_dec (documentCharacterIndex this)
              (parameterValueDefinitions (document this))) as [Hnone | [pv Hfirst]].
  - unfold getReferenceSiteInfo in Hsite.
    rewrite Htpl, (scan_outside this tpl _ Hnone) in Hsite. discriminate.
  - rewrite (getReferenceSiteInfo_first this includeDefinition tpl pv Htpl Hfirst) in Hsite.
    destruct (getParameterDefinition _ _) as [d|] eqn:Hd; [|discriminate].
    exists tpl, pv, d. injection Hsite as <-. auto.
Qed.

(** The two boundaries of a quoted name's raw span lie outside its
    quote-stripped span, even under extended containment. *)
Lemma stripQuotes_excludes_boundaries (s : language.Span) (index : Z) :
  (2 <= language.length s)%Z ->
  index = language.startIndex s \/ index = language.afterEndIndex s ->
  language.contains s index language.extended = true /\
  language.contains (language.stripQuotes s) index language.extended = false.
Proof.
  unfold language.contains, language.stripQuotes, language.afterEndIndex. simpl.
  intros Hlen [-> | ->]; split;
    rewrite ?andb_true_iff, ?andb_false_iff, ?Z.leb_le, ?Z.leb_gt; lia.
Qed.

End ResolutionProperties.

(** C10.  A returned site carries the quote-stripped span of the matched
    name, whereas the cursor was tested against the raw span under extended
    containment.  So with the cursor on the opening quote or on the end
    boundary of a resolving name, the site returned has an unquoted span
    that does not contain the queried offset; the sample document at offset
    16 is such an input. *)
Theorem reference_span_may_exclude_cursor :
  (forall (ParameterDefinition : Type)
          (this : ParametersPositionContext ParameterDefinition)
          (includeDefinition : bool) site,
     getReferenceSiteInfo this includeDefinition = Some site ->
     exists pv,
       In pv (parameterValueDefinitions (document this)) /\
       language.contains (span (nameValue pv)) (documentCharacterIndex this)
         language.extended = true /\
       unquotedReferenceSpan site = unquotedSpan (nameValue pv)) /\
  (forall (ParameterDefinition : Type)
          (this : ParametersPositionContext ParameterDefinition)
          (includeDefinition : bool) tpl pv d,
     _associatedTemplate this = Some tpl ->
     firstContaining (documentCharacterIndex this)
       (parameterValueDefinitions (document this)) pv ->
     wellQuoted (nameValue pv) ->
     getParameterDefinition (topLevelScope tpl) (unquotedValue (nameValue pv)) = Some d ->
     documentCharacterIndex this = language.startIndex (span (nameValue pv)) \/
     documentCharacterIndex this = language.afterEndIndex (span (nameValue pv)) ->
     exists site,
       getReferenceSiteInfo this includeDefinition = Some site /\
       language.contains (unquotedReferenceSpan site) (documentCharacterIndex this)
         language.extended = false) /\
  (exists site,
     getReferenceSiteInfo (sampleContext 16) false = Some site /\
     wellQuoted locationName /\
     language.contains (unquotedReferenceSpan site) 16 language.extended = false /\
     language.contains (unquotedReferenceSpan site) 16 language.strict = false).
Proof.
  split; [|split].
  - intros PD this b site Hsite.
    destruct (getReferenceSiteInfo_site_origin this b site Hsite)
      as (tpl & pv & d & _ & Hfirst & _ & ->).
    exists pv. destruct (first_containing_in _ _ _ Hfirst) as [Hin Hc].
    repeat split; assumption.
  - intros PD this b tpl pv d Htpl Hfirst [Hstrip Hlen] Hd Hidx.
    exists (siteFor this tpl pv d). split.
    + now rewrite (getReferenceSiteInfo_first this b tpl pv Htpl Hfirst), Hd.
    + simpl. rewrite Hstrip.
      now apply stripQuotes_excludes_boundaries.
  - eexists. split; [reflexivity|].
    repeat split. unfold locationName; simpl; lia.
Qed.

Section ReferenceProperties.

Context {ParameterDefinition : Type}.
Variable sameDefinition : forall d d' : ParameterDefinition, {d = d'} + {d <> d'}.

(** C4.  The reference-list query returns absent exactly when
    [getReferenceSiteInfo] returns absent; otherwise it returns the
    document's list of references to the resolved definition, whatever the
    document counts as a reference.  With the references of the document
    being the names that the associated template resolves to the
    definition, that list includes the originating reference span. *)
Theorem getReferencesCore_absent_or_document_list
    (this : ParametersPositionContext ParameterDefinition) :
  (forall refersTo,
     (getReferencesCore refersTo this = None <->
      getReferenceSiteInfo this false = None) /\
     (forall site,
        getReferenceSiteInfo this false = Some site ->
        getReferencesCore refersTo this =
        Some (findReferencesToDefinition refersTo (document this) (definition site)))) /\
  (forall site,
     getReferenceSiteInfo this false = Some site ->
     exists references,
       getReferencesCore (documentRefersTo sameDefinition this) this
         = Some references /\
       In (unquotedReferenceSpan site) references).
Proof.
  split.
  - intros refersTo. unfold getReferencesCore.
    destruct (getReferenceSiteInfo this false) as [site|]; split.
    + split; discriminate.
    + now intros site' [= <-].
    + split; reflexivity.
    + discriminate.
  - intros site Hsite. unfold getReferencesCore. rewrite Hsite.
    eexists. split; [reflexivity|].
    destruct (getReferenceSiteInfo_site_origin this false site Hsite)
      as (tpl & pv & d & Htpl & Hfirst & Hd & ->).
    destruct (first_containing_in _ _ _ Hfirst) as [Hin _].
    unfold findReferencesToDefinition. cbn [siteFor unquotedReferenceSpan definition].
    apply (in_map (fun pv => unquotedSpan (nameValue pv))).
    apply filter_In. split; [exact Hin|].
    unfold documentRefersTo, designates. rewrite Htpl, Hd.
    now destruct (sameDefinition d d).
Qed.

End ReferenceProperties.

(* ================================================================== *)
(** * Part V: properties of the snippet catalogue                      *)
(* ================================================================== *)

(** ** Lists, strings and maps *)

Lemma setNth_length {A : Type} (n : nat) (x : A) (l : list A) :
  List.length (setNth n x l) = List.length l.
Proof.
  revert n. induction l as [|y l IH]; intros [|n]; simpl; auto.
Qed.

Lemma nth_setNth {A : Type} (n : nat) (x d : A) (l : list A) :
  (n < List.length l)%nat -> nth n (setNth n x l) d = x.
Proof.
  revert n. induction l as [|y l IH]; intros [|n] Hn; simpl in *; try lia; auto.
  apply IH. lia.
Qed.

Lemma string_length_append (a b : string) :
  String.length (a ++ b) = (String.length a + String.length b)%nat.
Proof.
  induction a as [|c a IH]; simpl; auto.
Qed.

Lemma braces_change_label (l : string) : "{" ++ l ++ "}" <> l.
Proof.
  intros H. apply (f_equal String.length) in H.
  simpl in H. rewrite string_length_append in H. simpl in H. lia.
Qed.

Lemma doesSnippetSupportContext_iff (s : ISnippetInternal) (c : SnippetContext) :
  doesSnippetSupportContext s c = true <-> context s = Some c.
Proof.
  unfold doesSnippetSupportContext. destruct (context s) as [c'|].
  - rewrite String.eqb_eq. split; congruence.
  - split; discriminate.
Qed.

Lemma Map_set_fresh (map : SnippetMap) (key : string) (value : ISnippetInternal) :
  ~ In key (List.map fst map) ->
  Map_set map key value = (map ++ [(key, value)])%list.
Proof.
  induction map as [|[k v] map IH]; simpl; intros Hfresh.
  - reflexivity.
  - destruct (String.eqb_spec k key) as [->|Hne].
    + exfalso. apply Hfresh. now left.
    + rewrite IH; auto.
Qed.

Lemma convertSnippet_snippet (entry : string * FromFile.ISnippetDefinitionFromFile) :
  (fst entry, fst (convertSnippet (fst entry) (snd entry))) = specifiedSnippet entry.
Proof. reflexivity. Qed.

(** On an object, whose property names are pairwise distinct, the loader's
    loop appends the converted records to the map in order. *)
Lemma convertAll_appends (entries : SnippetsObject) :
  forall (map : SnippetMap) (shown : Warnings),
    NoDup (ownPropertyNames entries) ->
    (forall key, In key (List.map fst map) -> ~ In key (ownPropertyNames entries)) ->
    fst (convertAll (filter notReserved entries) map shown) =
    (map ++ List.map specifiedSnippet (filter notReserved entries))%list.
Proof.
  unfold ownPropertyNames.
  induction entries as [|[n d] entries IH]; intros map shown Hnodup Hdisj.
  - simpl. now rewrite app_nil_r.
  - cbn [List.map fst] in Hnodup. inversion Hnodup as [|? ? Hn Hrest]; subst.
    assert (Hfresh : ~ In n (List.map fst map)).
    { intros Hk. apply (Hdisj n Hk). now left. }
    assert (Hdisj' : forall key, In key (List.map fst map) ->
                                 ~ In key (List.map fst entries)).
    { intros key Hk Hin. apply (Hdisj key Hk). now right. }
    cbn [filter]. destruct (notReserved (n, d)) eqn:Hres.
    + cbn [convertAll List.map].
      destruct (convertSnippet n d) as [snippet w] eqn:Hconv.
      assert (Hs : (n, snippet) = specifiedSnippet (n, d)).
      { rewrite <- convertSnippet_snippet. cbn [fst snd]. now rewrite Hconv. }
      rewrite IH; auto.
      * rewrite Map_set_fresh by exact Hfresh.
        rewrite <- app_assoc. cbn [app]. now rewrite Hs.
      * intros key Hk. rewrite Map_set_fresh in Hk by exact Hfresh.
        rewrite map_app in Hk. apply in_app_or in Hk as [Hk | [<- | []]]; auto.
    + apply IH; auto.
Qed.

Lemma pushItems_acc (extensionName : string) (context' : SnippetContext)
    (span : language.Span) (addDoubleQuotes : bool) (entries : SnippetMap) :
  forall items,
    pushItems extensionName context' span addDoubleQuotes entries items =
    (items ++ pushItems extensionName context' span addDoubleQuotes entries [])%list.
Proof.
  induction entries as [|entry entries IH]; intros items; simpl.
  - now rewrite app_nil_r.
  - destruct (doesSnippetSupportContext (snd entry) context').
    + rewrite IH. rewrite (IH [_]). now rewrite <- app_assoc.
    + apply IH.
Qed.

(** Every item pushed comes from a supported snippet of the map and is
    built from it as the loop body says. *)
Lemma pushItems_item (extensionName : string) (context' : SnippetContext)
    (span : language.Span) (addDoubleQuotes : bool) (entries : SnippetMap)
    (item : Completion.Item) :
  In item (pushItems extensionName context' span addDoubleQuotes entries []) ->
  exists snippet,
    In snippet (Map_values entries) /\
    context snippet = Some context' /\
    Completion.label item = "{" ++ specifiedLabel addDoubleQuotes (prefix snippet) ++ "}" /\
    Completion.insertText item = insertText snippet /\
    Completion.span item = span /\
    Completion.kind item = Completion.Snippet /\
    Completion.priority item = Completion.low.
Proof.
  induction entries as [|entry entries IH]; simpl.
  - intros [].
  - destruct (doesSnippetSupportContext (snd entry) context') eqn:Hsup.
    + rewrite pushItems_acc. intros [<- | Hin].
      * exists (snd entry). simpl.
        apply doesSnippetSupportContext_iff in Hsup. repeat split; auto.
      * destruct (IH Hin) as (snippet & Hs & Hrest).
        exists snippet. split; [now right | exact Hrest].
    + intros Hin. destruct (IH Hin) as (snippet & Hs & Hrest).
      exists snippet. split; [now right | exact Hrest].
Qed.

Lemma join_concat (sep : string) (lines : list string) :
  join sep lines = String.concat sep lines.
Proof.
  induction lines as [|l lines IH]; [reflexivity|].
  destruct lines as [|l' lines]; [reflexivity|].
  change (l ++ sep ++ join sep (l' :: lines) =
          l ++ sep ++ String.concat sep (l' :: lines)).
  now rewrite IH.
Qed.

Lemma notReserved_first_char (entry : string * FromFile.ISnippetDefinitionFromFile) :
  notReserved entry =
  match fst entry with
  | String c _ => negb (Ascii.eqb c "$")
  | EmptyString => true
  end.
Proof.
  unfold notReserved, startsWith. destruct (fst entry) as [|c k]; [reflexivity|].
  cbn -[ascii_dec]. destruct (ascii_dec "$" c) as [<- | Hne].
  - rewrite Ascii.eqb_refl. now destruct k.
  - f_equal. symmetry. apply Ascii.eqb_neq. congruence.
Qed.

Section SnippetProperties.

Variable stripJsonComments : string -> string.
Variable JSON_parse : string -> Outcome SnippetsObject.
Variable extensionName : string.

(** ** Loading *)

(** A query on a manager with nothing memoized issues one read and
    memoizes a fresh pending promise. *)
Lemma getMap_starts_load (this : SnippetManager) :
  _snippetMap this = None ->
  getMap this =
  (List.length (promises this),
   {| _snippetMap := Some (List.length (promises this));
      promises := (promises this ++ [Pending])%list;
      fileReads := S (fileReads this);
      warningsShown := warningsShown this |}).
Proof.
  intros Hnone. unfold getMap, getOrCachePromise. now rewrite Hnone.
Qed.

Lemma getMap_memoized (this : SnippetManager) (p : PromiseId) :
  _snippetMap this = Some p -> getMap this = (p, this).
Proof.
  intros Hsome. unfold getMap, getOrCachePromise. now rewrite Hsome.
Qed.

(** A successful load fulfils the pending promise with the map built. *)
Lemma fileReadCompletes_fulfils (this : SnippetManager) (p : PromiseId)
    (read : Outcome string) (map : SnippetMap) :
  nth_error (promises this) p = Some Pending ->
  fst (loadSnippets stripJsonComments JSON_parse read) = Returns map ->
  promiseState (fileReadCompletes stripJsonComments JSON_parse p read this) p
  = Fulfilled map.
Proof.
  intros Hpending Hload. unfold fileReadCompletes. rewrite Hpending.
  destruct (loadSnippets stripJsonComments JSON_parse read) as [[m|e] w];
    simpl in Hload; [|discriminate].
  injection Hload as ->. unfold promiseState. simpl.
  apply nth_setNth. apply nth_error_Some. congruence.
Qed.

(** C5.  Once the catalogue is loaded, [getSnippets] returns exactly the
    entries whose context tag equals the requested tag; a tag that matches
    no entry yields the empty list, not an error. *)
Theorem getSnippets_filters_by_exact_tag
    (context' : SnippetContext) (this later : SnippetManager) (map : SnippetMap) :
  let call := fst (getSnippets context' this) in
  promiseState later (awaits call) = Fulfilled map ->
  exists result,
    poll call later = Fulfilled result /\
    (forall s, In s result <-> In s (Map_values map) /\ context s = Some context') /\
    ((forall s, In s (Map_values map) -> context s <> Some context') -> result = []).
Proof.
  unfold getSnippets. destruct (getMap this) as [p this1]. simpl.
  intros Hloaded. unfold poll. simpl. rewrite Hloaded. simpl.
  eexists. split; [reflexivity|]. split.
  - intros s. rewrite filter_In. now rewrite doesSnippetSupportContext_iff.
  - intros Hnone. induction (Map_values map) as [|s l IH]; simpl; auto.
    destruct (doesSnippetSupportContext s context') eqn:Hs.
    + apply doesSnippetSupportContext_iff in Hs.
      exfalso. apply (Hnone s); [now left | exact Hs].
    + apply IH. intros s' Hin. apply Hnone. now right.
Qed.

(** C6.  The load skips every top-level key beginning with [$] and converts
    each remaining record into a snippet whose insert text is the record's
    body lines joined with newline characters: the loaded map holds, in the
    order of the file, one entry per key whose first character is not [$],
    with the record's prefix, description and context and with the body
    lines concatenated with a line feed between consecutive lines.  For the
    one-entry fragment source of the example, [getSnippets('resources')]
    yields the one snippet named [arm-vnet] whose insert text is the single
    body line, and [getSnippets('parameterValues')] yields the empty list.
    For a source with a [$schema] key and a record of three body lines, the
    reserved key is absent from the map and the three lines come out
    separated by line feeds. *)
Theorem load_skips_reserved_and_joins_body :
  (forall content snippets,
     JSON_parse (stripJsonComments content) = Returns snippets ->
     NoDup (ownPropertyNames snippets) ->
     fst (loadSnippets stripJsonComments JSON_parse (Returns content)) =
     Returns
       (List.map
          (fun entry =>
             (fst entry,
              {| name := fst entry;
                 prefix := FromFile.prefix (snd entry);
                 description := FromFile.description (snd entry);
                 insertText :=
                   String.concat (String "010" EmptyString) (FromFile.body (snd entry));
                 context := FromFile.context (snd entry) |}))
          (filter
             (fun entry =>
                match fst entry with
                | String c _ => negb (Ascii.eqb c "$")
                | EmptyString => true
                end) snippets))) /\
  (forall content,
     JSON_parse (stripJsonComments content) = Returns vnetSource ->
     forall context',
       let started := getSnippets context' newSnippetManager in
       let loaded :=
         fileReadCompletes stripJsonComments JSON_parse
           (awaits (fst started)) (Returns content) (snd started) in
       (context' = KnownSnippetContexts.resources ->
        poll (fst started) loaded = Fulfilled [vnetSnippet]) /\
       (context' = KnownSnippetContexts.parameterValues ->
        poll (fst started) loaded = Fulfilled [])) /\
  (forall content,
     JSON_parse (stripJsonComments content) = Returns mixedSource ->
     let started := getSnippets KnownSnippetContexts.parameterValues newSnippetManager in
     let loaded :=
       fileReadCompletes stripJsonComments JSON_parse
         (awaits (fst started)) (Returns content) (snd started) in
     poll (fst started) loaded = Fulfilled [nsgSnippet] /\
     exists map,
       promiseState loaded (awaits (fst started)) = Fulfilled map /\
       List.map fst map = ["arm-vnet"; "arm-nsg"; "new-parameter-value"]).
Proof.
  split; [|split].
  - intros content snippets Hparse Hnodup. unfold loadSnippets. rewrite Hparse.
    pose proof (convertAll_appends snippets [] [] Hnodup) as Happ.
    destruct (convertAll (filter notReserved snippets) [] []) as [map w].
    simpl in *. rewrite Happ by auto. f_equal.
    rewrite (filter_ext _ _ notReserved_first_char).
    apply map_ext. intros [n d]. unfold specifiedSnippet. cbn [fst snd].
    now rewrite join_concat.
  - intros content Hparse context'. simpl.
    unfold poll, fileReadCompletes, loadSnippets, promiseState. simpl.
    rewrite Hparse. simpl. split; intros ->; reflexivity.
  - intros content Hparse. simpl.
    unfold poll, fileReadCompletes, loadSnippets, promiseState. simpl.
    rewrite Hparse. split; [reflexivity|].
    eexists. split; reflexivity.
Qed.

(** ** Completion items *)

(** C8.  [getSnippetsAsCompletionItems] never hands a failure to its
    caller: whatever the state the awaited load ends in, the promise
    returned is not rejected; a failed load degrades to the empty list, and
    as soon as the load has settled the promise is fulfilled. *)
Theorem getSnippetsAsCompletionItems_never_rejects
    (context' : SnippetContext) (span : language.Span)
    (triggerCharacter : option string) (addDoubleQuotes : bool)
    (this later : SnippetManager) :
  let call := fst (getSnippetsAsCompletionItems extensionName context' span
                     triggerCharacter addDoubleQuotes this) in
  (forall e, poll call later <> Rejected e) /\
  (forall e, promiseState later (awaits call) = Rejected e ->
             poll call later = Fulfilled []) /\
  (promiseState later (awaits call) <> Pending ->
   exists items, poll call later = Fulfilled items).
Proof.
  unfold getSnippetsAsCompletionItems. destruct (getMap this) as [p this1].
  simpl. unfold poll. simpl.
  destruct (promiseState later p) as [|map|e']; simpl; repeat split;
    try discriminate; try congruence; eauto.
Qed.

(** C2.  What the code does for the display label: every item produced
    carries the low display priority and the given span verbatim, but its
    label is the specified label (the prefix, quoted exactly when quote
    mode is on and the prefix has no leading quote) wrapped in a pair of
    braces, hence never the specified label itself.  With the [arm-vnet]
    snippet and quote mode off the label is [{vnet}], not [vnet]. *)
Theorem getSnippetsAsCompletionItems_label_is_braced :
  (forall (context' : SnippetContext) (span : language.Span)
          (triggerCharacter : option string) (addDoubleQuotes : bool)
          (this later : SnippetManager) (map : SnippetMap),
     let call := fst (getSnippetsAsCompletionItems extensionName context' span
                        triggerCharacter addDoubleQuotes this) in
     promiseState later (awaits call) = Fulfilled map ->
     exists items,
       poll call later = Fulfilled items /\
       forall item, In item items ->
         Completion.priority item = Completion.low /\
         Completion.span item = span /\
         exists snippet,
           In snippet (Map_values map) /\
           context snippet = Some context' /\
           Completion.label item =
             "{" ++ specifiedLabel addDoubleQuotes (prefix snippet) ++ "}" /\
           Completion.label item <> specifiedLabel addDoubleQuotes (prefix snippet)) /\
  (forall span later,
     let call := fst (getSnippetsAsCompletionItems extensionName
                        KnownSnippetContexts.resources span None false
                        newSnippetManager) in
     promiseState later (awaits call) = Fulfilled [("arm-vnet", vnetSnippet)] ->
     exists item,
       poll call later = Fulfilled [item] /\
       specifiedLabel false (prefix vnetSnippet) = "vnet" /\
       Completion.label item = "{vnet}").
Proof.
  split.
  - intros context' span trig quote this later map.
    unfold getSnippetsAsCompletionItems. destruct (getMap this) as [p this1].
    simpl. intros Hloaded. unfold poll. simpl. rewrite Hloaded. simpl.
    eexists. split; [reflexivity|].
    intros item Hin.
    destruct (pushItems_item _ _ _ _ _ _ Hin)
      as (snippet & Hs & Hctx & Hlabel & _ & Hspan & _ & Hprio).
    repeat split; auto. exists snippet. repeat split; auto.
    rewrite Hlabel. apply braces_change_label.
  - intros span later. simpl. intros Hloaded. unfold poll. simpl.
    rewrite Hloaded. simpl. eexists. repeat split.
Qed.

(** ** The memoized load *)

(** Each query is a call of [getMap] followed by an [await]. *)
Lemma query_is_getMap (this : SnippetManager) (ev : Event) :
  isQuery ev = true ->
  step stripJsonComments JSON_parse extensionName this ev = snd (getMap this) /\
  handleOf extensionName this ev = Some (fst (getMap this)).
Proof.
  destruct ev as [c | c span trig quote | p read]; intros Hq;
    try discriminate; simpl;
    unfold getSnippets, getSnippetsAsCompletionItems;
    destruct (getMap this); auto.
Qed.

Lemma fileRead_no_handle (this : SnippetManager) (ev : Event) :
  isQuery ev = false -> handleOf extensionName this ev = None.
Proof. destruct ev; try discriminate; reflexivity. Qed.

Lemma singleLoad_step (this : SnippetManager) (ev : Event) :
  singleLoad this -> eventOk stripJsonComments JSON_parse ev ->
  singleLoad (step stripJsonComments JSON_parse extensionName this ev) /\
  (forall p, handleOf extensionName this ev = Some p -> p = 0%nat).
Proof.
  intros Hsingle Hok.
  destruct (isQuery ev) eqn:Hq.
  - destruct (query_is_getMap this ev Hq) as [-> ->].
    destruct Hsingle as (Hcache & Hrest).
    rewrite (getMap_memoized this 0 Hcache). simpl.
    split; [now split | now intros p [= <-]].
  - rewrite (fileRead_no_handle this ev Hq). split; [|discriminate].
    destruct ev as [c | c span trig quote | p read]; try discriminate.
    destruct Hsingle as (Hcache & Hreads & state & Hproms & Hstate).
    assert (Hsame : singleLoad this) by (repeat split; eauto).
    simpl. unfold fileReadCompletes. rewrite Hproms.
    destruct p as [|p]; simpl; [|now destruct p].
    destruct state as [|m|e]; [|exact Hsame|exact Hsame].
    simpl in Hok. unfold loadSucceeds in Hok.
    destruct (loadSnippets stripJsonComments JSON_parse read) as [[map|e] w];
      simpl in Hok; [|discriminate].
    split; [exact Hcache|]. split; [exact Hreads|].
    exists (Fulfilled map). split; [reflexivity | discriminate].
Qed.

Lemma singleLoad_run (evs : list Event) :
  forall this,
    singleLoad this -> noFailedLoad stripJsonComments JSON_parse evs ->
    singleLoad (run stripJsonComments JSON_parse extensionName this evs) /\
    Forall (fun p => p = 0%nat) (handles stripJsonComments JSON_parse extensionName
        this evs).
Proof.
  induction evs as [|ev evs IH]; intros this Hthis Hok; simpl.
  - split; [exact Hthis | constructor].
  - inversion Hok as [|? ? Hev Hevs]; subst.
    destruct (singleLoad_step this ev Hthis Hev) as [Hnext Hhandle].
    destruct (IH _ Hnext Hevs) as [Hrun Hhandles].
    split; [exact Hrun|].
    destruct (handleOf extensionName this ev) as [p|]; [|exact Hhandles].
    constructor; [now apply Hhandle | exact Hhandles].
Qed.

Lemma first_query_starts_single_load (ev : Event) :
  isQuery ev = true ->
  singleLoad (step stripJsonComments JSON_parse extensionName newSnippetManager ev) /\
  handleOf extensionName newSnippetManager ev = Some 0%nat.
Proof.
  intros Hq. destruct (query_is_getMap newSnippetManager ev Hq) as [-> ->].
  simpl. repeat split. exists Pending. split; [reflexivity | discriminate].
Qed.

(** From a new manager, a run in which no load fails either issues no query
    and leaves the manager untouched, or reaches a single memoized load. *)
Lemma fresh_run (evs : list Event) :
  noFailedLoad stripJsonComments JSON_parse evs ->
  (existsb isQuery evs = false /\
   run stripJsonComments JSON_parse extensionName
       newSnippetManager evs = newSnippetManager /\
   handles stripJsonComments JSON_parse extensionName newSnippetManager evs = []) \/
  (existsb isQuery evs = true /\
   singleLoad (run stripJsonComments JSON_parse extensionName newSnippetManager evs) /\
   Forall (fun p => p = 0%nat) (handles stripJsonComments JSON_parse extensionName
       newSnippetManager evs)).
Proof.
  induction evs as [|ev evs IH]; intros Hok.
  - left. auto.
  - inversion Hok as [|? ? Hev Hevs]; subst.
    cbn [existsb run handles fold_left].
    destruct (isQuery ev) eqn:Hq.
    + right. destruct (first_query_starts_single_load ev Hq) as [Hsingle ->].
      destruct (singleLoad_run evs _ Hsingle Hevs) as [Hrun Hhandles].
      split; [reflexivity|]. split; [exact Hrun|].
      constructor; [reflexivity | exact Hhandles].
    + rewrite (fileRead_no_handle newSnippetManager ev Hq).
      assert (Hnoop : step stripJsonComments JSON_parse extensionName
          newSnippetManager ev = newSnippetManager).
      { destruct ev as [c | c span trig quote | p read]; try discriminate.
        simpl. unfold fileReadCompletes. simpl. now destruct p. }
      rewrite Hnoop. exact (IH Hevs).
Qed.

(** C3.  The catalogue is loaded at most once: in any run of a new manager
    in which no load fails, the snippet file is read exactly once if a query
    was issued (and not at all otherwise) and every query awaits the same
    promise, so in particular two queries perform one read whether or not
    the first load is still in flight.  A failed load rejects the promise
    its queries await and clears the memoization: the next query issues a
    new read on a fresh promise, which a successful load then fulfils. *)
Theorem catalogue_single_flight_and_retry :
  (forall evs,
     noFailedLoad stripJsonComments JSON_parse evs ->
     fileReads (run stripJsonComments JSON_parse extensionName newSnippetManager evs) =
       (if existsb isQuery evs then 1 else 0)%nat /\
     Forall (fun p => p = 0%nat) (handles stripJsonComments JSON_parse extensionName
         newSnippetManager evs)) /\
  (forall first second inFlight settled,
     isQuery first = true -> isQuery second = true ->
     noFailedLoad stripJsonComments JSON_parse (inFlight ++ settled) ->
     fileReads (run stripJsonComments JSON_parse extensionName
         newSnippetManager (first :: inFlight ++ second :: settled))
     = 1%nat) /\
  (forall this p read,
     _snippetMap this = Some p ->
     nth_error (promises this) p = Some Pending ->
     loadSucceeds stripJsonComments JSON_parse read = false ->
     forall retryQuery, isQuery retryQuery = true ->
     let failed := step stripJsonComments JSON_parse extensionName
         this (FileRead p read) in
     let retried := step stripJsonComments JSON_parse extensionName failed retryQuery in
     _snippetMap failed = None /\
     (exists e, promiseState failed p = Rejected e) /\
     (exists p',
        handleOf extensionName failed retryQuery = Some p' /\
        p' <> p /\
        fileReads retried = S (fileReads this) /\
        _snippetMap retried = Some p' /\
        promiseState retried p' = Pending /\
        forall read' map,
          fst (loadSnippets stripJsonComments JSON_parse read') = Returns map ->
          promiseState (step stripJsonComments JSON_parse extensionName
              retried (FileRead p' read')) p' = Fulfilled map)).
Proof.
  assert (Hruns : forall evs,
     noFailedLoad stripJsonComments JSON_parse evs ->
     fileReads (run stripJsonComments JSON_parse extensionName newSnippetManager evs) =
       (if existsb isQuery evs then 1 else 0)%nat /\
     Forall (fun p => p = 0%nat) (handles stripJsonComments JSON_parse extensionName
         newSnippetManager evs)).
  { intros evs Hok.
    destruct (fresh_run evs Hok) as [(Hq & Hrun & Hh) | (Hq & Hrun & Hh)];
      rewrite Hq.
    - rewrite Hrun, Hh. split; [reflexivity | constructor].
    - split; [apply Hrun | exact Hh]. }
  split; [exact Hruns | split].
  - intros first second inFlight settled Hfirst Hsecond Hok.
    assert (Hany : forall ev, isQuery ev = true ->
                              eventOk stripJsonComments JSON_parse ev).
    { intros [| |] Hq; try discriminate; exact I. }
    assert (Hok' : noFailedLoad stripJsonComments JSON_parse
        (first :: inFlight ++ second :: settled)).
    { unfold noFailedLoad in *. apply Forall_app in Hok as [H1 H2].
      constructor; [now apply Hany|]. apply Forall_app. split; [exact H1|].
      constructor; [now apply Hany | exact H2]. }
    destruct (Hruns _ Hok') as [-> _]. cbn [existsb]. now rewrite Hfirst.
  - intros this p read Hcache Hpending Hfail retryQuery Hq failed retried.
    assert (Hlen : (p < List.length (promises this))%nat).
    { apply nth_error_Some. congruence. }
    unfold loadSucceeds in Hfail.
    assert (Hfailed : exists e w,
              failed = {| _snippetMap := None;
                          promises := setNth p (Rejected e) (promises this);
                          fileReads := fileReads this;
                          warningsShown := (warningsShown this ++ w)%list |}).
    { unfold failed. simpl. unfold fileReadCompletes. rewrite Hpending.
      destruct (loadSnippets stripJsonComments JSON_parse read) as [[map|e] w];
        simpl in Hfail; [discriminate|].
      exists e, w. rewrite Hcache. simpl. now rewrite Nat.eqb_refl. }
    destruct Hfailed as (e & w & Hfailed).
    destruct (query_is_getMap failed retryQuery Hq) as [Hstep Hhandle].
    assert (Hretried : retried = snd (getMap failed)) by exact Hstep.
    rewrite Hhandle.
    rewrite getMap_starts_load in Hretried |- * by (rewrite Hfailed; reflexivity).
    rewrite Hfailed in Hretried |- *. simpl in Hretried |- *.
    rewrite setNth_length in Hretried |- *.
    split; [reflexivity|]. split.
    { exists e. unfold promiseState. simpl. now apply nth_setNth. }
    exists (List.length (promises this)). rewrite Hretried. simpl.
    split; [reflexivity|]. split; [lia|]. repeat split.
    + unfold promiseState. simpl.
      rewrite app_nth2; rewrite setNth_length; [|lia].
      now rewrite Nat.sub_diag.
    + intros read' map Hload.
      apply fileReadCompletes_fulfils; [|exact Hload]. simpl.
      rewrite nth_error_app2; rewrite setNth_length; [|lia].
      now rewrite Nat.sub_diag.
Qed.

End SnippetProperties.

(* ================================================================== *)
(** * Part VI: the properties at work on the sample documents          *)
(* ================================================================== *)

Lemma getReferenceSiteInfo_resolves_witness :
  getReferenceSiteInfo (sampleContext 26) true =
    Some (siteFor (sampleContext 26) sampleTemplate
            {| nameValue := locationName |} "definition of location") /\
  ~ (exists site, getReferenceSiteInfo (sampleContext 50) true = Some site) /\
  getReferenceSiteInfo (sampleContext 30) true = None /\
  getReferenceSiteInfo
    {| document := sampleParameters;
       _associatedTemplate := @None (DeploymentTemplate string);
       documentCharacterIndex := 26 |} true = None.
Proof.
  destruct (getReferenceSiteInfo_resolves (sampleContext 26) true)
    as (_ & _ & Hlocation).
  destruct (getReferenceSiteInfo_resolves (sampleContext 50) true)
    as (_ & _ & Horphan).
  destruct (getReferenceSiteInfo_resolves (sampleContext 30) true)
    as (_ & Houtside & _).
  destruct (getReferenceSiteInfo_resolves
              {| document := sampleParameters;
                 _associatedTemplate := @None (DeploymentTemplate string);
                 documentCharacterIndex := 26 |} true)
    as (Hunlinked & _ & _).
  split; [|split; [|split]].
  - apply (Hlocation sampleTemplate {| nameValue := locationName |} eq_refl);
      [|reflexivity].
    left. exists [], [ {| nameValue := orphanName |} ].
    split; [reflexivity|]. split; [constructor | reflexivity].
  - intros Hsite.
    apply (Horphan sampleTemplate {| nameValue := orphanName |} eq_refl) in Hsite.
    + destruct Hsite as [d Hd]. discriminate Hd.
    + left. exists [ {| nameValue := locationName |} ], [].
      split; [reflexivity|].
      split; [repeat constructor | reflexivity].
  - apply Houtside. intros pv [<- | [<- | []]]; reflexivity.
  - apply Hunlinked. reflexivity.
Defined.

Lemma getReferenceSiteInfo_stops_at_first_containing_witness :
  insideName 58 {| nameValue := touchingName |} = true /\
  getParameterDefinition sampleScope (unquotedValue touchingName)
    = Some "definition of location" /\
  getReferenceSiteInfo touchingContext false = None.
Proof.
  split; [reflexivity|]. split; [reflexivity|].
  destruct (getReferenceSiteInfo_stops_at_first_containing touchingContext false
              sampleTemplate [] {| nameValue := orphanName |}
              [ {| nameValue := touchingName |} ]
              eq_refl eq_refl (Forall_nil _) eq_refl) as [Horphan _].
  exact (Horphan eq_refl).
Defined.

Lemma reference_span_may_exclude_cursor_witness :
  exists site,
    getReferenceSiteInfo (sampleContext 26) false = Some site /\
    language.contains (unquotedReferenceSpan site) 26 language.extended = false.
Proof.
  destruct reference_span_may_exclude_cursor as (_ & Hboundary & _).
  apply (Hboundary string (sampleContext 26) false sampleTemplate
           {| nameValue := locationName |} "definition of location").
  - reflexivity.
  - exists [], [ {| nameValue := orphanName |} ].
    split; [reflexivity|]. split; [constructor | reflexivity].
  - split; [reflexivity | simpl; lia].
  - reflexivity.
  - right. reflexivity.
Defined.

Lemma getReferencesCore_absent_or_document_list_witness :
  (exists references,
     getReferencesCore (documentRefersTo string_dec (sampleContext 20))
       (sampleContext 20) = Some references /\
     In (language.mkSpan 17 8) references) /\
  (getReferencesCore (documentRefersTo string_dec (sampleContext 30)) (sampleContext 30)
     = None <->
   getReferenceSiteInfo (sampleContext 30) false = None).
Proof.
  destruct (getReferencesCore_absent_or_document_list string_dec (sampleContext 20))
    as [_ Hlist].
  destruct (getReferencesCore_absent_or_document_list string_dec (sampleContext 30))
    as [Habsent _].
  split.
  - exact (Hlist _ eq_refl).
  - exact (proj1 (Habsent _)).
Defined.

Lemma getSnippets_filters_by_exact_tag_witness :
  poll (fst (getSnippets "doesNotExist" waitingManager)) loadedManager = Fulfilled [] /\
  exists result,
    poll (fst (getSnippets "resources" waitingManager)) loadedManager = Fulfilled result /\
    In vnetSnippet result.
Proof.
  destruct (getSnippets_filters_by_exact_tag "doesNotExist" waitingManager
              loadedManager [("arm-vnet", vnetSnippet)] eq_refl)
    as (none & Hnone & _ & Hempty).
  destruct (getSnippets_filters_by_exact_tag "resources" waitingManager
              loadedManager [("arm-vnet", vnetSnippet)] eq_refl)
    as (result & Hresult & Hin & _).
  split.
  - rewrite Hnone. f_equal. apply Hempty.
    intros s [<- | []]. discriminate.
  - exists result. split; [exact Hresult|].
    apply Hin. split; [now left | reflexivity].
Defined.

Lemma load_skips_reserved_and_joins_body_witness :
  poll (fst (getSnippets "resources" newSnippetManager)) loadedManager
    = Fulfilled [vnetSnippet] /\
  fst (loadSnippets sampleStrip sampleParse (Returns "vnet"))
    = Returns [("arm-vnet", vnetSnippet)] /\
  fst (loadSnippets sampleStrip mixedParse (Returns "mixed"))
    = Returns
        [ ("arm-vnet", vnetSnippet);
          ("arm-nsg", nsgSnippet);
          ("new-parameter-value",
           {| name := "new-parameter-value";
              prefix := dquote ++ "new-parameter-value" ++ dquote;
              description := "Parameter value";
              insertText := "$1";
              context := None |}) ] /\
  poll (fst (getSnippets "parameterValues" newSnippetManager))
    (fileReadCompletes sampleStrip mixedParse 0 (Returns "mixed")
       (snd (getSnippets "parameterValues" newSnippetManager)))
    = Fulfilled [nsgSnippet].
Proof.
  destruct (load_skips_reserved_and_joins_body sampleStrip sampleParse)
    as (Hload & Hexample & _).
  destruct (load_skips_reserved_and_joins_body sampleStrip mixedParse)
    as (Hmixed & _ & Hlines).
  split; [|split; [|split]].
  - exact (proj1 (Hexample "vnet" eq_refl "resources") eq_refl).
  - rewrite (Hload "vnet" vnetSource eq_refl); [reflexivity|].
    repeat constructor. intros [].
  - rewrite (Hmixed "mixed" mixedSource eq_refl); [reflexivity|].
    unfold ownPropertyNames, mixedSource. cbn [List.map fst].
    repeat constructor; cbn [In]; intros H;
      repeat (destruct H as [H | H]; [discriminate H|]); exact H.
  - exact (proj1 (Hlines "mixed" eq_refl)).
Defined.

Lemma getSnippetsAsCompletionItems_never_rejects_witness :
  poll (fst (getSnippetsAsCompletionItems sampleExtensionName "resources"
               (language.mkSpan 3 0) None true newSnippetManager))
       (run sampleStrip sampleParse sampleExtensionName newSnippetManager
          [CallGetSnippets "resources"; FileRead 0%nat (Throws (IOError "ENOENT"))])
  = Fulfilled [].
Proof.
  destruct (getSnippetsAsCompletionItems_never_rejects sampleExtensionName
              "resources" (language.mkSpan 3 0) None true newSnippetManager
              (run sampleStrip sampleParse sampleExtensionName newSnippetManager
                 [CallGetSnippets "resources";
                  FileRead 0%nat (Throws (IOError "ENOENT"))]))
    as (_ & Hfailed & _).
  exact (Hfailed (IOError "ENOENT") eq_refl).
Defined.

Lemma getSnippetsAsCompletionItems_label_is_braced_witness :
  exists item,
    poll (fst (getSnippetsAsCompletionItems sampleExtensionName
                 KnownSnippetContexts.resources (language.mkSpan 3 0) None false
                 newSnippetManager)) loadedManager = Fulfilled [item] /\
    specifiedLabel false (prefix vnetSnippet) = "vnet" /\
    Completion.label item = "{vnet}".
Proof.
  destruct (getSnippetsAsCompletionItems_label_is_braced sampleExtensionName)
    as [_ Hvnet].
  exact (Hvnet (language.mkSpan 3 0) loadedManager eq_refl).
Defined.

Lemma catalogue_single_flight_and_retry_witness :
  fileReads loadedManager = 1%nat /\
  fileReads (run sampleStrip sampleParse sampleExtensionName newSnippetManager
               [ CallGetSnippets "resources";
                 FileRead 0%nat (Returns "malformed");
                 CallGetSnippets "resources" ]) = 2%nat.
Proof.
  destruct (catalogue_single_flight_and_retry sampleStrip sampleParse
              sampleExtensionName) as (Hsingle & _ & Hretry).
  split.
  - refine (proj1 (Hsingle sampleRun _)). repeat constructor.
  - destruct (Hretry waitingManager 0%nat (Returns "malformed")
                eq_refl eq_refl eq_refl (CallGetSnippets "resources") eq_refl)
      as (_ & _ & p' & _ & _ & Hreads & _).
    exact Hreads.
Defined.

(* ================================================================== *)
(** * Part VII: further properties of conversion, loading and queries  *)
(* ================================================================== *)

(** ** The resource heuristic *)

Lemma string_append_assoc (a b c : string) : (a ++ b) ++ c = a ++ (b ++ c).
Proof. induction a as [|x a IH]; simpl; [reflexivity | now rewrite IH]. Qed.

Lemma string_append_cancel (p a b : string) : p ++ a = p ++ b -> a = b.
Proof.
  induction p as [|x p IH]; simpl; intros H; [exact H|].
  injection H as H. now apply IH.
Qed.

Lemma dropPrefix_iff (p s rest : string) :
  dropPrefix p s = Some rest <-> s = p ++ rest.
Proof.
  revert s. induction p as [|a p IH]; intros s; simpl.
  - split; [now intros [= ->] | now intros ->].
  - destruct s as [|b s].
    + split; discriminate.
    + destruct (Ascii.eqb_spec a b) as [->|Hne].
      * rewrite IH. split; [now intros -> | now intros [= ->]].
      * split; [discriminate | intros [= Hab _]; now elim Hne].
Qed.

Lemma startsWith_colon (s : string) :
  startsWith s ":" = true <-> exists after, s = ":" ++ after.
Proof.
  unfold startsWith. destruct s as [|b s]; cbn -[ascii_dec].
  - split; [discriminate | intros [after H]; discriminate].
  - destruct (ascii_dec ":" b) as [<-|Hne].
    + split; [intros _; now exists s | now destruct s].
    + split; [discriminate|].
      intros [after H]. injection H as Hb _. now elim Hne.
Qed.

Lemma string_length_dropped (p s rest : string) :
  dropPrefix p s = Some rest ->
  String.length s = (String.length p + String.length rest)%nat.
Proof.
  intros H. apply dropPrefix_iff in H as ->. apply string_length_append.
Qed.

Lemma dropAny_some (chars : list string) (s rest : string) :
  dropAny chars s = Some rest -> exists c, In c chars /\ s = c ++ rest.
Proof.
  induction chars as [|c chars IH]; simpl; [discriminate|].
  destruct (dropPrefix c s) as [r|] eqn:Hdrop.
  - intros [= ->]. exists c. split; [now left | now apply dropPrefix_iff].
  - intros H. destruct (IH H) as (c' & Hin & Heq). exists c'. split; auto.
Qed.

Lemma dropAny_none (chars : list string) (s : string) :
  dropAny chars s = None -> forall c, In c chars -> dropPrefix c s = None.
Proof.
  induction chars as [|c chars IH]; simpl; intros H c' Hin; [destruct Hin|].
  destruct (dropPrefix c s) eqn:Hdrop; [discriminate|].
  destruct Hin as [<- | Hin]; [exact Hdrop | now apply IH].
Qed.

(** When two strings have a common extension, one is a prefix of the other. *)
Lemma append_eq_prefix (c c' r r' : string) :
  c ++ r = c' ++ r' ->
  (exists t, dropPrefix c' c = Some t) \/ (exists t, dropPrefix c c' = Some t).
Proof.
  revert c'. induction c as [|a c IH]; intros c' H.
  - right. now exists c'.
  - destruct c' as [|a' c'].
    + left. now exists (String a c).
    + simpl in H. injection H as <- H. simpl. rewrite Ascii.eqb_refl.
      now apply IH.
Qed.

(** The encodings of the white-space characters: none is empty, none starts
    with a colon, and none is a proper prefix of another. *)
Lemma whiteSpaceChars_shape :
  forall c, In c whiteSpaceChars ->
    (1 <= String.length c)%nat /\
    (forall after, dropPrefix c (":" ++ after) = None) /\
    (forall c' t, In c' whiteSpaceChars -> dropPrefix c' c = Some t -> c = c').
Proof.
  assert (Hcheck :
    forallb (fun c =>
      match c with
      | EmptyString => false
      | String a _ => negb (Ascii.eqb a ":")
      end &&
      forallb (fun c' =>
        match dropPrefix c' c with
        | Some t => String.eqb c c'
        | None => true
        end) whiteSpaceChars) whiteSpaceChars = true) by (vm_compute; reflexivity).
  intros c Hin.
  rewrite forallb_forall in Hcheck. specialize (Hcheck c Hin).
  apply andb_true_iff in Hcheck as [Hhead Hfree].
  destruct c as [|a c]; [discriminate|].
  split; [simpl; lia|]. split.
  - intros after. simpl. apply negb_true_iff in Hhead. now rewrite Hhead.
  - intros c' t Hin' Hdrop. rewrite forallb_forall in Hfree.
    specialize (Hfree c' Hin'). rewrite Hdrop in Hfree.
    now apply String.eqb_eq.
Qed.

Lemma whiteSpaceChars_unique (c c' r r' : string) :
  In c whiteSpaceChars -> In c' whiteSpaceChars ->
  c ++ r = c' ++ r' -> c = c' /\ r = r'.
Proof.
  intros Hc Hc' Heq.
  assert (Hsame : c = c').
  { destruct (append_eq_prefix c c' r r' Heq) as [[t Ht] | [t Ht]].
    - now apply (proj2 (proj2 (whiteSpaceChars_shape c Hc)) c' t).
    - symmetry. now apply (proj2 (proj2 (whiteSpaceChars_shape c' Hc')) c t). }
  subst c'. split; [reflexivity|]. now apply string_append_cancel in Heq.
Qed.

Lemma skipWhiteSpaceUpTo_colon (fuel : nat) :
  forall rest,
    (String.length rest <= fuel)%nat ->
    (startsWith (skipWhiteSpaceUpTo fuel rest) ":" = true <->
     exists ws after, rest = ws ++ ":" ++ after /\ allWhiteSpace ws).
Proof.
  induction fuel as [|fuel IH]; intros rest Hlen.
  - destruct rest as [|a rest]; [|simpl in Hlen; lia]. simpl. split.
    + discriminate.
    + intros (ws & after & Heq & _). destruct ws; discriminate Heq.
  - cbn [skipWhiteSpaceUpTo].
    destruct (dropAny whiteSpaceChars rest) as [rest'|] eqn:Hdrop.
    + destruct (dropAny_some _ _ _ Hdrop) as (c & Hc & ->).
      destruct (whiteSpaceChars_shape c Hc) as (Hnonempty & _ & _).
      rewrite string_length_append in Hlen.
      rewrite IH by lia. split.
      * intros (ws & after & -> & cps & Hcps & ->).
        apply in_map_iff in Hc as (cp & <- & Hcp).
        exists (utf8 cp ++ fold_right append EmptyString (List.map utf8 cps)), after.
        split; [now rewrite string_append_assoc|].
        exists (cp :: cps). split; [now constructor | reflexivity].
      * intros (ws & after & Heq & cps & Hcps & ->).
        destruct cps as [|cp cps].
        -- simpl in Heq.
           destruct (whiteSpaceChars_shape c Hc) as (_ & Hcolon & _).
           specialize (Hcolon after). simpl in Hcolon. rewrite <- Heq in Hcolon.
           assert (Hself : dropPrefix c (c ++ rest') = Some rest')
             by now apply dropPrefix_iff.
           congruence.
        -- inversion Hcps as [|? ? Hcp Hcps']; subst.
           cbn [List.map fold_right] in Heq.
           rewrite string_append_assoc in Heq.
           assert (Hin : In (utf8 cp) whiteSpaceChars) by now apply in_map.
           destruct (whiteSpaceChars_unique _ _ _ _ Hc Hin Heq) as [_ ->].
           exists (fold_right append EmptyString (List.map utf8 cps)), after.
           split; [reflexivity|]. now exists cps.
    + rewrite startsWith_colon. split.
      * intros [after ->]. exists EmptyString, after.
        split; [reflexivity|]. exists []. split; [constructor | reflexivity].
      * intros (ws & after & -> & cps & Hcps & ->).
        destruct cps as [|cp cps]; [now exists after|].
        inversion Hcps as [|? ? Hcp Hcps']; subst.
        assert (Hin : In (utf8 cp) whiteSpaceChars) by now apply in_map.
        pose proof (dropAny_none _ _ Hdrop _ Hin) as Hnone.
        cbn [List.map fold_right] in Hnone.
        rewrite string_append_assoc in Hnone.
        assert (Hself : forall r, dropPrefix (utf8 cp) (utf8 cp ++ r) = Some r)
          by (intros r; now apply dropPrefix_iff).
        rewrite Hself in Hnone. discriminate.
Qed.

Lemma skipWhiteSpace_colon (rest : string) :
  startsWith (skipWhiteSpace rest) ":" = true <->
  exists ws after, rest = ws ++ ":" ++ after /\ allWhiteSpace ws.
Proof. unfold skipWhiteSpace. now apply skipWhiteSpaceUpTo_colon. Qed.

Lemma matchesApiVersionHere_iff (s : string) :
  matchesApiVersionHere s = true <->
  exists ws after,
    s = apiVersionKey ++ ws ++ ":" ++ after /\ allWhiteSpace ws.
Proof.
  unfold matchesApiVersionHere. split.
  - destruct (dropPrefix apiVersionKey s) as [rest|] eqn:Hdrop; [|discriminate].
    apply dropPrefix_iff in Hdrop. intros H.
    apply skipWhiteSpace_colon in H as (ws & after & -> & Hws).
    now exists ws, after.
  - intros (ws & after & -> & Hws).
    assert (Hdrop : dropPrefix apiVersionKey
                      (apiVersionKey ++ ws ++ ":" ++ after)
                    = Some (ws ++ ":" ++ after)) by now apply dropPrefix_iff.
    rewrite Hdrop. apply skipWhiteSpace_colon. now exists ws, after.
Qed.

(** X1.  The resource heuristic of [convertSnippet] holds of a line exactly
    when the line contains the quoted key [apiVersion], then any number of
    white-space characters of the regular-expression class (the blanks and
    line terminators of the whole basic plane, U+2028 and U+FEFF included),
    then a colon: the regular expression of the source, matched anywhere in
    the line. *)
Theorem matchesApiVersion_iff (line : string) :
  matchesApiVersion line = true <->
  exists before ws after,
    line = before ++ apiVersionKey ++ ws ++ ":" ++ after /\
    allWhiteSpace ws.
Proof.
  induction line as [|c line IH].
  - split.
    + intros H. discriminate H.
    + intros (before & ws & after & Heq & _).
      destruct before; discriminate Heq.
  - cbn [matchesApiVersion]. rewrite orb_true_iff, IH, matchesApiVersionHere_iff.
    split.
    + intros [(ws & after & Heq & Hws) | (before & ws & after & Heq & Hws)].
      * exists EmptyString, ws, after. now split.
      * exists (String c before), ws, after. simpl. now rewrite Heq.
    + intros (before & ws & after & Heq & Hws).
      destruct before as [|b before].
      * left. now exists ws, after.
      * right. injection Heq as _ Heq. now exists before, ws, after.
Qed.

(** ** The advisory warnings of [convertSnippet] *)

Lemma warnings_distinct (snippetName : string) :
  noContextWarning snippetName <> notLikeResourceWarning snippetName /\
  noContextWarning snippetName <> likeResourceWarning snippetName /\
  notLikeResourceWarning snippetName <> likeResourceWarning snippetName.
Proof.
  unfold noContextWarning, notLikeResourceWarning, likeResourceWarning.
  repeat split; intros H;
    do 4 apply string_append_cancel in H; discriminate H.
Qed.

(** The warnings of one conversion, message by message. *)
Lemma convertSnippet_shows (snippetName : string)
    (snippetFromFile : FromFile.ISnippetDefinitionFromFile) :
  let shown := snd (convertSnippet snippetName snippetFromFile) in
  (In (noContextWarning snippetName) shown <->
   FromFile.context snippetFromFile = None) /\
  (In (notLikeResourceWarning snippetName) shown <->
   FromFile.context snippetFromFile = Some KnownSnippetContexts.resources /\
   looksLikeResource snippetFromFile = false) /\
  (In (likeResourceWarning snippetName) shown <->
   FromFile.context snippetFromFile <> Some KnownSnippetContexts.resources /\
   looksLikeResource snippetFromFile = true) /\
  (forall message, In message shown ->
     message = noContextWarning snippetName \/
     message = notLikeResourceWarning snippetName \/
     message = likeResourceWarning snippetName) /\
  (shown = [] <->
   exists c, FromFile.context snippetFromFile = Some c /\
             (c = KnownSnippetContexts.resources <->
              looksLikeResource snippetFromFile = true)).
Proof.
  destruct (warnings_distinct snippetName) as (H12 & H13 & H23).
  unfold convertSnippet, looksLikeResource, doesSnippetSupportContext,
    KnownSnippetContexts.resources.
  cbn [snd context].
  fold (noContextWarning snippetName) (notLikeResourceWarning snippetName)
       (likeResourceWarning snippetName).
  destruct (FromFile.context snippetFromFile) as [c|];
    [destruct (String.eqb_spec c "resources") as [->|Hc]|];
    destruct (existsb matchesApiVersion (FromFile.body snippetFromFile));
    cbn [negb app In];
    repeat match goal with |- _ /\ _ => split | |- _ <-> _ => split end;
    intros;
    repeat match goal with
           | H : _ \/ _ |- _ => destruct H
           | H : _ /\ _ |- _ => destruct H
           | H : exists _, _ |- _ => destruct H
           | H : False |- _ => destruct H
           | H : _ <-> _ |- _ => destruct H
           end;
    try discriminate; try congruence; auto;
    try (exfalso; auto; congruence).
  all: try (eexists; split; [reflexivity|]; split; intros; congruence).
  all: try (split; [congruence | reflexivity]).
  all: exfalso;
    match goal with H : Some _ = Some _ |- _ => injection H as <- end;
    match goal with
    | H : ?x = ?x -> false = true |- _ => discriminate (H eq_refl)
    | H : true = true -> ?c = _, Hne : ?c <> _ |- _ => exact (Hne (H eq_refl))
    end.
Qed.

(** X2.  [convertSnippet] shows the missing-context warning exactly when the
    record has no context, the marked-as-resource warning exactly when the
    record is tagged [resources] and no body line looks like a resource, and
    the looks-like-a-resource warning exactly when some body line does and
    the record is not tagged [resources].  It shows nothing else, and shows
    nothing at all exactly when the record has a context and its tag agrees
    with its body. *)
Theorem convertSnippet_warnings (snippetName : string)
    (snippetFromFile : FromFile.ISnippetDefinitionFromFile) :
  let shown := snd (convertSnippet snippetName snippetFromFile) in
  (In (noContextWarning snippetName) shown <->
   FromFile.context snippetFromFile = None) /\
  (In (notLikeResourceWarning snippetName) shown <->
   FromFile.context snippetFromFile = Some KnownSnippetContexts.resources /\
   looksLikeResource snippetFromFile = false) /\
  (In (likeResourceWarning snippetName) shown <->
   FromFile.context snippetFromFile <> Some KnownSnippetContexts.resources /\
   looksLikeResource snippetFromFile = true) /\
  (forall message, In message shown ->
     message = noContextWarning snippetName \/
     message = notLikeResourceWarning snippetName \/
     message = likeResourceWarning snippetName) /\
  (shown = [] <->
   exists c, FromFile.context snippetFromFile = Some c /\
             (c = KnownSnippetContexts.resources <->
              looksLikeResource snippetFromFile = true)).
Proof. exact (convertSnippet_shows snippetName snippetFromFile). Qed.

(** ** The loaded map *)

Lemma Map_set_In (map : SnippetMap) (key : string) (value : ISnippetInternal)
    (k : string) (v : ISnippetInternal) :
  In (k, v) (Map_set map key value) ->
  (k = key /\ v = value) \/ In (k, v) map.
Proof.
  induction map as [|[k0 v0] map IH]; simpl.
  - intros [[= <- <-] | []]. now left.
  - destruct (String.eqb_spec k0 key) as [->|Hne]; simpl.
    + intros [[= <- <-] | Hin]; [now left | right; now right].
    + intros [Heq | Hin]; [right; now left|].
      destruct (IH Hin) as [Hnew | Hold]; [now left | right; now right].
Qed.

Lemma Map_set_keys (map : SnippetMap) (key : string) (value : ISnippetInternal)
    (k : string) :
  In k (Map_keys (Map_set map key value)) <-> k = key \/ In k (Map_keys map).
Proof.
  unfold Map_keys. induction map as [|[k0 v0] map IH]; simpl.
  - intuition.
  - destruct (String.eqb_spec k0 key) as [->|Hne]; simpl.
    + intuition.
    + rewrite IH. intuition.
Qed.

Lemma Map_set_NoDup (map : SnippetMap) (key : string) (value : ISnippetInternal) :
  NoDup (Map_keys map) -> NoDup (Map_keys (Map_set map key value)).
Proof.
  unfold Map_keys. induction map as [|[k0 v0] map IH]; simpl; intros Hnd.
  - repeat constructor. intros [].
  - inversion Hnd as [|? ? Hk0 Hrest]; subst.
    destruct (String.eqb_spec k0 key) as [->|Hne]; simpl.
    + now constructor.
    + constructor; [|now apply IH].
      intros Hin. apply (Map_set_keys map key value k0) in Hin as [Heq | Hin];
        [now elim Hne | now elim Hk0].
Qed.

(** What the loader's loop keeps true of the map it fills. *)
Lemma convertAll_invariant (source : SnippetsObject) (entries : SnippetsObject) :
  forall (map : SnippetMap) (shown : Warnings),
    (forall entry, In entry entries -> In entry source /\ notReserved entry = true) ->
    NoDup (Map_keys map) ->
    (forall k s, In (k, s) map ->
       exists record, In (k, record) source /\ notReserved (k, record) = true /\
                      (k, s) = specifiedSnippet (k, record)) ->
    let map' := fst (convertAll entries map shown) in
    NoDup (Map_keys map') /\
    (forall k s, In (k, s) map' ->
       exists record, In (k, record) source /\ notReserved (k, record) = true /\
                      (k, s) = specifiedSnippet (k, record)).
Proof.
  induction entries as [|[n d] entries IH]; intros map shown Hsrc Hnd Hprov.
  - simpl. now split.
  - cbn [convertAll]. destruct (convertSnippet n d) as [snippet w] eqn:Hconv.
    assert (Hs : (n, snippet) = specifiedSnippet (n, d)).
    { rewrite <- convertSnippet_snippet. cbn [fst snd]. now rewrite Hconv. }
    apply IH.
    + intros entry Hin. apply Hsrc. now right.
    + now apply Map_set_NoDup.
    + intros k s Hin. apply Map_set_In in Hin as [[-> ->] | Hin].
      * exists d. destruct (Hsrc (n, d) (or_introl eq_refl)) as [Hin Hres].
        now repeat split.
      * now apply Hprov.
Qed.

Lemma convertAll_warnings (entries : SnippetsObject) :
  forall (map : SnippetMap) (shown : Warnings),
    snd (convertAll entries map shown) =
    (shown ++ flat_map (fun entry => snd (convertSnippet (fst entry) (snd entry)))
                entries)%list.
Proof.
  induction entries as [|[n d] entries IH]; intros map shown.
  - simpl. now rewrite app_nil_r.
  - cbn [convertAll flat_map fst snd].
    destruct (convertSnippet n d) as [snippet w].
    rewrite IH. cbn [snd]. now rewrite app_assoc.
Qed.

Section LoadProperties.

Variable stripJsonComments : string -> string.
Variable JSON_parse : string -> Outcome SnippetsObject.
Variable extensionName : string.

(** X3.  Whatever the decoder returns, a map that the loader builds has
    pairwise distinct keys, no key starting with [$], and holds under each
    key the conversion of a record the file has under that key: the
    snippet's name is its key and its insert text is that record's body
    joined with newlines. *)
Theorem loaded_map_is_well_keyed (read : Outcome string) (map : SnippetMap) :
  fst (loadSnippets stripJsonComments JSON_parse read) = Returns map ->
  NoDup (Map_keys map) /\
  (forall k s, In (k, s) map ->
     name s = k /\ startsWith k "$" = false /\
     exists content snippets record,
       read = Returns content /\
       JSON_parse (stripJsonComments content) = Returns snippets /\
       In (k, record) snippets /\
       (k, s) = specifiedSnippet (k, record)).
Proof.
  unfold loadSnippets. destruct read as [content|e]; [|discriminate].
  destruct (JSON_parse (stripJsonComments content)) as [snippets|e] eqn:Hparse;
    [|discriminate].
  pose proof (convertAll_invariant snippets (filter notReserved snippets) [] [])
    as Hinv.
  destruct (convertAll (filter notReserved snippets) [] []) as [map' w].
  cbn [fst]. intros [= ->].
  destruct Hinv as [Hnd Hprov].
  - intros entry Hin. now apply filter_In in Hin.
  - constructor.
  - intros k s [].
  - split; [exact Hnd|].
    intros k s Hin. destruct (Hprov k s Hin) as (record & Hrec & Hres & Hs).
    repeat split.
    + injection Hs as Hs. now rewrite Hs.
    + unfold notReserved in Hres. cbn [fst] in Hres.
      now apply negb_true_iff in Hres.
    + now exists content, snippets, record.
Qed.

Lemma getSnippets_getMap (context' : SnippetContext) (this : SnippetManager) :
  awaits (fst (getSnippets context' this)) = fst (getMap this) /\
  snd (getSnippets context' this) = snd (getMap this).
Proof. unfold getSnippets. now destruct (getMap this). Qed.

Lemma getSnippetsAsCompletionItems_getMap (context' : SnippetContext)
    (span : language.Span) (triggerCharacter : option string)
    (addDoubleQuotes : bool) (this : SnippetManager) :
  awaits (fst (getSnippetsAsCompletionItems extensionName context' span
                 triggerCharacter addDoubleQuotes this)) = fst (getMap this) /\
  snd (getSnippetsAsCompletionItems extensionName context' span
         triggerCharacter addDoubleQuotes this) = snd (getMap this).
Proof. unfold getSnippetsAsCompletionItems. now destruct (getMap this). Qed.

(** The first load of a manager, when the file decodes to an object: the
    promise is fulfilled with the converted records and the warnings of the
    conversions are shown in order. *)
Lemma first_load_completes (this : SnippetManager) (content : string)
    (snippets : SnippetsObject) :
  _snippetMap this = None ->
  JSON_parse (stripJsonComments content) = Returns snippets ->
  NoDup (ownPropertyNames snippets) ->
  let loaded :=
    fileReadCompletes stripJsonComments JSON_parse (fst (getMap this))
      (Returns content) (snd (getMap this)) in
  promiseState loaded (fst (getMap this)) =
    Fulfilled (List.map specifiedSnippet (filter notReserved snippets)) /\
  warningsShown loaded =
    (warningsShown this ++
     flat_map (fun entry => snd (convertSnippet (fst entry) (snd entry)))
       (filter notReserved snippets))%list.
Proof.
  intros Hnone Hparse Hnodup.
  rewrite (getMap_starts_load this Hnone). cbn [fst snd].
  assert (Hpending : nth_error (promises this ++ [Pending])
                       (List.length (promises this)) = Some Pending).
  { rewrite nth_error_app2 by lia. now rewrite Nat.sub_diag. }
  pose proof (convertAll_appends snippets [] [] Hnodup
                (fun k (H : In k []) => False_ind _ H)) as Hmap.
  pose proof (convertAll_warnings (filter notReserved snippets) [] []) as Hshown.
  unfold fileReadCompletes, loadSnippets. cbn [promises]. rewrite Hpending, Hparse.
  destruct (convertAll (filter notReserved snippets) [] []) as [map w].
  cbn [fst snd app] in Hmap, Hshown. subst map w.
  unfold promiseState. cbn [promises warningsShown]. split; [|reflexivity].
  apply nth_setNth. rewrite length_app. simpl. lia.
Qed.

Lemma unique_record (snippets : SnippetsObject) (n : string)
    (d d' : FromFile.ISnippetDefinitionFromFile) :
  NoDup (ownPropertyNames snippets) ->
  In (n, d) snippets -> In (n, d') snippets -> d = d'.
Proof.
  unfold ownPropertyNames.
  induction snippets as [|[k r] snippets IH]; simpl; intros Hnd Hd Hd'.
  - destruct Hd.
  - inversion Hnd as [|? ? Hk Hrest]; subst.
    destruct Hd as [Heq | Hd]; destruct Hd' as [Heq' | Hd'].
    + congruence.
    + injection Heq as -> ->. elim Hk. exact (in_map fst _ _ Hd').
    + injection Heq' as -> ->. elim Hk. exact (in_map fst _ _ Hd).
    + now apply IH.
Qed.

Lemma pushItems_map (context' : SnippetContext) (span : language.Span)
    (addDoubleQuotes : bool) (entries : SnippetMap) :
  pushItems extensionName context' span addDoubleQuotes entries [] =
  List.map (itemFor extensionName span addDoubleQuotes)
    (filter (fun entry => doesSnippetSupportContext (snd entry) context') entries).
Proof.
  induction entries as [|entry entries IH]; simpl.
  - reflexivity.
  - destruct (doesSnippetSupportContext (snd entry) context').
    + rewrite pushItems_acc, IH. reflexivity.
    + exact IH.
Qed.

Lemma filter_values (context' : SnippetContext) (entries : SnippetMap) :
  filter (fun s => doesSnippetSupportContext s context') (Map_values entries) =
  Map_values
    (filter (fun entry => doesSnippetSupportContext (snd entry) context') entries).
Proof.
  unfold Map_values. induction entries as [|entry entries IH]; simpl.
  - reflexivity.
  - destruct (doesSnippetSupportContext (snd entry) context'); simpl;
      now rewrite IH.
Qed.

Lemma getMap_again (this : SnippetManager) :
  _snippetMap this = None -> getMap (snd (getMap this)) = getMap this.
Proof.
  intros Hnone. rewrite (getMap_starts_load this Hnone). cbn [snd].
  now rewrite (getMap_memoized _ (List.length (promises this))).
Qed.

Lemma notReserved_iff (n : string) (d : FromFile.ISnippetDefinitionFromFile) :
  notReserved (n, d) = true <-> startsWith n "$" = false.
Proof. unfold notReserved. cbn [fst]. apply negb_true_iff. Qed.

(** X4.  A record whose body looks like a resource but whose tag is another
    context does not stop the load: the looks-like-a-resource warning is
    shown, and the snippet is still returned by [getSnippets] for the tag it
    declares. *)
Theorem mistagged_resource_is_warned_and_served
    (this : SnippetManager) (content : string) (snippets : SnippetsObject)
    (n : string) (d : FromFile.ISnippetDefinitionFromFile) (c : SnippetContext) :
  _snippetMap this = None ->
  JSON_parse (stripJsonComments content) = Returns snippets ->
  NoDup (ownPropertyNames snippets) ->
  In (n, d) snippets ->
  startsWith n "$" = false ->
  FromFile.context d = Some c ->
  c <> KnownSnippetContexts.resources ->
  looksLikeResource d = true ->
  let started := getSnippets c this in
  let loaded :=
    fileReadCompletes stripJsonComments JSON_parse (awaits (fst started))
      (Returns content) (snd started) in
  In (likeResourceWarning n) (warningsShown loaded) /\
  exists result,
    poll (fst started) loaded = Fulfilled result /\
    In (snd (specifiedSnippet (n, d))) result.
Proof.
  intros Hnone Hparse Hnodup Hin Hn Hc Hne Hlooks.
  destruct (first_load_completes this content snippets Hnone Hparse Hnodup)
    as [Hmap Hshown].
  assert (Hkept : In (n, d) (filter notReserved snippets)).
  { apply filter_In. split; [exact Hin | now apply notReserved_iff]. }
  unfold getSnippets. destruct (getMap this) as [p this1]. cbn [fst snd] in *.
  unfold poll. cbn [awaits andThen]. rewrite Hmap, Hshown. split.
  - apply in_or_app. right. apply in_flat_map. exists (n, d).
    split; [exact Hkept|]. cbn [fst snd].
    apply (convertSnippet_shows n d). split; [congruence | exact Hlooks].
  - eexists. split; [reflexivity|].
    apply filter_In. split.
    + unfold Map_values. rewrite map_map.
      exact (in_map (fun entry => snd (specifiedSnippet entry)) _ _ Hkept).
    + apply doesSnippetSupportContext_iff. exact Hc.
Qed.

(** X5.  A record without context is kept in the map and the
    missing-context warning is shown, but no query ever returns it: for
    every requested tag, [getSnippets] returns no snippet of that name and
    [getSnippetsAsCompletionItems] no item of that snippet name. *)
Theorem untagged_record_is_kept_but_never_served
    (this : SnippetManager) (content : string) (snippets : SnippetsObject)
    (n : string) (d : FromFile.ISnippetDefinitionFromFile)
    (c : SnippetContext) (span : language.Span)
    (triggerCharacter : option string) (addDoubleQuotes : bool) :
  _snippetMap this = None ->
  JSON_parse (stripJsonComments content) = Returns snippets ->
  NoDup (ownPropertyNames snippets) ->
  In (n, d) snippets ->
  startsWith n "$" = false ->
  FromFile.context d = None ->
  let first := getSnippets c this in
  let second :=
    getSnippetsAsCompletionItems extensionName c span triggerCharacter
      addDoubleQuotes (snd first) in
  let loaded :=
    fileReadCompletes stripJsonComments JSON_parse (awaits (fst first))
      (Returns content) (snd second) in
  In (noContextWarning n) (warningsShown loaded) /\
  (exists map,
     promiseState loaded (awaits (fst first)) = Fulfilled map /\
     In (specifiedSnippet (n, d)) map) /\
  (exists result,
     poll (fst first) loaded = Fulfilled result /\
     forall s, In s result -> name s <> n) /\
  (exists items,
     poll (fst second) loaded = Fulfilled items /\
     forall item, In item items -> Completion.snippetName item <> n).
Proof.
  intros Hnone Hparse Hnodup Hin Hn Hc first second loaded.
  destruct (first_load_completes this content snippets Hnone Hparse Hnodup)
    as [Hmap Hshown].
  assert (Hkept : In (n, d) (filter notReserved snippets)).
  { apply filter_In. split; [exact Hin | now apply notReserved_iff]. }
  destruct (getSnippets_getMap c this) as [Hfirst Hstate].
  destruct (getSnippetsAsCompletionItems_getMap c span triggerCharacter
              addDoubleQuotes (snd first)) as [Hsecond Hstate'].
  unfold first in Hsecond, Hstate'. rewrite Hstate in Hsecond, Hstate'.
  rewrite (getMap_again this Hnone) in Hsecond, Hstate'.
  assert (Hloaded : loaded =
            fileReadCompletes stripJsonComments JSON_parse (fst (getMap this))
              (Returns content) (snd (getMap this))).
  { unfold loaded, second, first. now rewrite Hfirst, Hstate, Hstate'. }
  (* Entries of the map named [n] are the conversion of [d]. *)
  assert (Hnamed : forall k s,
            In (k, s) (List.map specifiedSnippet (filter notReserved snippets)) ->
            k = n -> context s = None).
  { intros k s Hks ->. apply in_map_iff in Hks as ([k' r] & Heq & Hr).
    injection Heq as -> <-. apply filter_In in Hr as [Hr _].
    cbn [snd context]. now rewrite (unique_record snippets n r d Hnodup Hr Hin). }
  assert (Hkeyed : forall k s,
            In (k, s) (List.map specifiedSnippet (filter notReserved snippets)) ->
            name s = k).
  { intros k s Hks. apply in_map_iff in Hks as ([k' r] & Heq & _).
    now injection Heq as -> <-. }
  rewrite Hloaded. split; [|split; [|split]].
  - rewrite Hshown. apply in_or_app. right. apply in_flat_map. exists (n, d).
    split; [exact Hkept|]. cbn [fst snd].
    now apply (convertSnippet_shows n d).
  - eexists. unfold first. rewrite Hfirst. split; [exact Hmap|].
    exact (in_map specifiedSnippet _ _ Hkept).
  - unfold poll. unfold first at 2. rewrite Hfirst, Hmap.
    unfold first, getSnippets. destruct (getMap this) as [p this1].
    cbn [fst andThen thenReturn]. eexists. split; [reflexivity|].
    intros s Hs Hname. apply filter_In in Hs as [Hs Hsup].
    apply doesSnippetSupportContext_iff in Hsup.
    unfold Map_values in Hs. apply in_map_iff in Hs as ([k s'] & Heq & Hks).
    cbn [snd] in Heq. subst s'.
    pose proof (Hkeyed k s Hks) as Hk.
    rewrite (Hnamed k s Hks) in Hsup by congruence. discriminate.
  - assert (Hawaits : awaits (fst second) = fst (getMap this)).
    { unfold second, first. rewrite Hstate. exact Hsecond. }
    unfold poll. rewrite Hawaits, Hmap.
    unfold second, getSnippetsAsCompletionItems.
    destruct (getMap (snd first)) as [p this1].
    cbn [fst andThen thenReturn callWithTelemetryAndErrorHandling nullish].
    eexists. split; [reflexivity|].
    intros item Hitem Hname. rewrite pushItems_map in Hitem.
    apply in_map_iff in Hitem as ([k s] & <- & Hks).
    apply filter_In in Hks as [Hks Hsup]. cbn [snd] in Hsup.
    apply doesSnippetSupportContext_iff in Hsup.
    cbn [itemFor Completion.snippetName fst] in Hname.
    rewrite (Hnamed k s Hks Hname) in Hsup. discriminate.
Qed.

(** X6.  On the same loaded map and for the same tag, the completion items
    are the snippets [getSnippets] returns, one item per snippet and in the
    same order: the insert text is the snippet's, verbatim, the detail is
    its description followed by the product name in parentheses, the kind
    is the snippet kind, and, the map holding each snippet under its name,
    the item's snippet name is the snippet's name. *)
Theorem completion_items_mirror_snippets
    (context' : SnippetContext) (span : language.Span)
    (triggerCharacter : option string) (addDoubleQuotes : bool)
    (this this' later : SnippetManager) (map : SnippetMap) :
  let snippetsCall := fst (getSnippets context' this) in
  let itemsCall :=
    fst (getSnippetsAsCompletionItems extensionName context' span
           triggerCharacter addDoubleQuotes this') in
  promiseState later (awaits snippetsCall) = Fulfilled map ->
  promiseState later (awaits itemsCall) = Fulfilled map ->
  exists snippets items,
    poll snippetsCall later = Fulfilled snippets /\
    poll itemsCall later = Fulfilled items /\
    List.length items = List.length snippets /\
    List.map Completion.insertText items = List.map insertText snippets /\
    List.map Completion.detail items =
      List.map (fun s => description s ++ " (" ++ extensionName ++ ")") snippets /\
    Forall (fun item => Completion.kind item = Completion.Snippet) items /\
    ((forall k s, In (k, s) map -> name s = k) ->
     List.map Completion.snippetName items = List.map name snippets).
Proof.
  unfold getSnippets, getSnippetsAsCompletionItems.
  destruct (getMap this) as [p this1]. destruct (getMap this') as [p' this1'].
  cbn [fst awaits]. intros Hs Hi. unfold poll. cbn [awaits andThen].
  rewrite Hs, Hi.
  cbn [thenReturn callWithTelemetryAndErrorHandling nullish].
  rewrite pushItems_map, filter_values. unfold Map_values.
  do 2 eexists. split; [reflexivity|]. split; [reflexivity|].
  rewrite !length_map, !map_map. repeat split.
  - apply Forall_forall. intros item Hin.
    apply in_map_iff in Hin as (entry & <- & _). reflexivity.
  - intros Hkeyed. apply map_ext_in. intros [k s] Hin.
    apply filter_In in Hin as [Hin _]. cbn. symmetry. now apply Hkeyed.
Qed.

(** X7.  Unlike the completion query, [getSnippets] hands a failed load to
    its caller: when the read of the file fails, or the content read does
    not decode, its promise is rejected with that very error, and no
    warning is shown. *)
Theorem getSnippets_surfaces_load_failure
    (context' : SnippetContext) (this : SnippetManager) (read : Outcome string)
    (e : Error) :
  _snippetMap this = None ->
  read = Throws e \/
  (exists content,
     read = Returns content /\ JSON_parse (stripJsonComments content) = Throws e) ->
  let started := getSnippets context' this in
  let failed :=
    fileReadCompletes stripJsonComments JSON_parse (awaits (fst started))
      read (snd started) in
  poll (fst started) failed = Rejected e /\
  warningsShown failed = warningsShown this.
Proof.
  intros Hnone Hcause.
  assert (Hfail : loadSnippets stripJsonComments JSON_parse read = (Throws e, [])).
  { unfold loadSnippets. destruct Hcause as [-> | (content & -> & Hparse)];
      [reflexivity | now rewrite Hparse]. }
  unfold getSnippets. rewrite (getMap_starts_load this Hnone). cbn [fst snd awaits].
  assert (Hpending : nth_error (promises this ++ [Pending])
                       (List.length (promises this)) = Some Pending).
  { rewrite nth_error_app2 by lia. now rewrite Nat.sub_diag. }
  unfold fileReadCompletes. cbn [promises]. rewrite Hpending, Hfail.
  unfold poll, promiseState.
  cbn [awaits andThen promises warningsShown _snippetMap].
  rewrite nth_setNth by (rewrite length_app; simpl; lia).
  split; [reflexivity | now rewrite app_nil_r].
Qed.

Lemma startsWith_dquote (s : string) :
  startsWith s dquote = true <-> exists rest, s = dquote ++ rest.
Proof.
  unfold startsWith, dquote. destruct s as [|b s]; cbn -[ascii_dec dquoteChar].
  - split; [discriminate | intros [rest H]; discriminate].
  - destruct (ascii_dec dquoteChar b) as [<-|Hne].
    + split; [intros _; now exists s | now destruct s].
    + split; [discriminate|].
      intros [rest H]. injection H as Hb _. now elim Hne.
Qed.

Lemma startsWith_append (p rest : string) : startsWith (p ++ rest) p = true.
Proof.
  unfold startsWith. induction p as [|a p IH]; cbn -[ascii_dec].
  - now destruct rest.
  - destruct (ascii_dec a a) as [_|Hne]; [exact IH | now elim Hne].
Qed.

(** X8.  In quote mode the label of every item opens with a double quote
    (after the brace the code puts in front of it), and a prefix that
    already starts with a double quote is not quoted again: when all the
    prefixes of the requested tag are already quoted, quote mode changes
    nothing. *)
Theorem quote_mode_quotes_once
    (context' : SnippetContext) (span : language.Span)
    (triggerCharacter : option string) (this later : SnippetManager)
    (map : SnippetMap) :
  let quoting :=
    fst (getSnippetsAsCompletionItems extensionName context' span
           triggerCharacter true this) in
  let plain :=
    fst (getSnippetsAsCompletionItems extensionName context' span
           triggerCharacter false this) in
  promiseState later (awaits quoting) = Fulfilled map ->
  exists quoted unquoted,
    poll quoting later = Fulfilled quoted /\
    poll plain later = Fulfilled unquoted /\
    (forall item, In item quoted ->
       startsWith (Completion.label item) ("{" ++ dquote) = true) /\
    ((forall s, In s (Map_values map) -> context s = Some context' ->
                startsWith (prefix s) dquote = true) ->
     quoted = unquoted).
Proof.
  unfold getSnippetsAsCompletionItems. destruct (getMap this) as [p this1].
  cbn [fst awaits]. intros Hmap. unfold poll. cbn [awaits andThen].
  rewrite Hmap. cbn [thenReturn callWithTelemetryAndErrorHandling nullish].
  rewrite !pushItems_map. do 2 eexists.
  split; [reflexivity|]. split; [reflexivity|]. split.
  - intros item Hin. apply in_map_iff in Hin as ([k s] & <- & _).
    cbn [itemFor Completion.label snd andb].
    destruct (startsWith (prefix s) dquote) eqn:Hq; cbn [negb].
    + apply startsWith_dquote in Hq as [rest ->].
      exact (startsWith_append ("{" ++ dquote) (rest ++ "}")).
    + replace ("{" ++ (dquote ++ prefix s ++ dquote) ++ "}")
        with (("{" ++ dquote) ++ prefix s ++ dquote ++ "}")
        by (simpl; now rewrite string_append_assoc).
      apply startsWith_append.
  - intros Hquoted. apply map_ext_in. intros [k s] Hin.
    apply filter_In in Hin as [Hin Hsup]. cbn [snd] in Hsup.
    apply doesSnippetSupportContext_iff in Hsup.
    assert (Hq : startsWith (prefix s) dquote = true).
    { apply Hquoted; [|exact Hsup].
      unfold Map_values. exact (in_map snd _ _ Hin). }
    unfold itemFor. cbn [snd]. now rewrite Hq.
Qed.

(** X9.  Records under reserved keys are skipped before conversion and so
    never cause a warning: the first load of a file shows no warning exactly
    when every record under a key not starting with [$] has a context and a
    tag that agrees with its body. *)
Theorem load_is_quiet_iff_records_consistent
    (this : SnippetManager) (content : string) (snippets : SnippetsObject) :
  _snippetMap this = None ->
  JSON_parse (stripJsonComments content) = Returns snippets ->
  NoDup (ownPropertyNames snippets) ->
  let loaded :=
    fileReadCompletes stripJsonComments JSON_parse (fst (getMap this))
      (Returns content) (snd (getMap this)) in
  warningsShown loaded = warningsShown this <->
  (forall n d,
     In (n, d) snippets -> startsWith n "$" = false ->
     exists c, FromFile.context d = Some c /\
               (c = KnownSnippetContexts.resources <-> looksLikeResource d = true)).
Proof.
  intros Hnone Hparse Hnodup.
  destruct (first_load_completes this content snippets Hnone Hparse Hnodup)
    as [_ Hshown].
  cbv zeta. rewrite Hshown. clear Hshown Hparse.
  assert (Hnil : forall (l : list string), (warningsShown this ++ l)%list
                   = warningsShown this <-> l = []).
  { intros l. split; [|intros ->; apply app_nil_r].
    intros H. rewrite <- (app_nil_r (warningsShown this)) in H at 2.
    now apply app_inv_head in H. }
  rewrite Hnil. split.
  - intros Hquiet n d Hin Hn.
    apply (convertSnippet_shows n d).
    destruct (snd (convertSnippet n d)) as [|m w] eqn:Hw; [reflexivity|].
    assert (Hm : In m (flat_map
                         (fun entry => snd (convertSnippet (fst entry) (snd entry)))
                         (filter notReserved snippets))).
    { apply in_flat_map. exists (n, d). split.
      - apply filter_In. split; [exact Hin | now apply notReserved_iff].
      - cbn [fst snd]. rewrite Hw. now left. }
    rewrite Hquiet in Hm. destruct Hm.
  - intros Hok. clear Hnodup.
    induction snippets as [|[n d] rest IH]; [reflexivity|].
    cbn [filter].
    assert (Hrest' : flat_map
                       (fun entry => snd (convertSnippet (fst entry) (snd entry)))
                       (filter notReserved rest) = []).
    { apply IH. intros n' d' Hin Hn'. apply (Hok n' d'); [now right | exact Hn']. }
    destruct (notReserved (n, d)) eqn:Hres; [|exact Hrest'].
    cbn [flat_map fst snd]. rewrite Hrest', app_nil_r.
    apply (convertSnippet_shows n d).
    apply (Hok n d); [now left | exact (proj1 (notReserved_iff n d) Hres)].
Qed.

End LoadProperties.


(** ** The position context *)

(** X10.  Every site [getReferenceSiteInfo] returns is a reference site of
    this document to a definition of the linked template: its kind is
    [reference], its documents are this document and the associated
    template, and its definition is what the template's top-level scope
    gives for the name of a parameter value of the document whose raw span
    contains the cursor and whose unquoted span is the site's. *)
Theorem getReferenceSiteInfo_site_is_sound
    (ParameterDefinition : Type)
    (this : ParametersPositionContext ParameterDefinition)
    (includeDefinition : bool) (site : IReferenceSite ParameterDefinition) :
  getReferenceSiteInfo this includeDefinition = Some site ->
  referenceKind site = reference /\
  referenceDocument site = document this /\
  _associatedTemplate this = Some (definitionDocument site) /\
  exists pv,
    In pv (parameterValueDefinitions (document this)) /\
    insideName (documentCharacterIndex this) pv = true /\
    unquotedReferenceSpan site = unquotedSpan (nameValue pv) /\
    getParameterDefinition (topLevelScope (definitionDocument site))
      (unquotedValue (nameValue pv)) = Some (definition site).
Proof.
  intros Hsite.
  destruct (getReferenceSiteInfo_site_origin this includeDefinition site Hsite)
    as (tpl & pv & d & Htpl & Hfirst & Hd & ->).
  destruct (first_containing_in _ _ _ Hfirst) as [Hin Hinside].
  cbn. repeat split; auto. now exists pv.
Qed.

(** X11.  The result does not depend on where in a name the cursor is: two
    offsets whose first containing definition is the same one give the same
    result, whatever the [includeDefinition] flags. *)
Theorem getReferenceSiteInfo_same_within_name
    (ParameterDefinition : Type) (doc : DeploymentParameters)
    (tpl : DeploymentTemplate ParameterDefinition) (index index' : Z)
    (pv : ParameterValueDefinition) (includeDefinition includeDefinition' : bool) :
  firstContaining index (parameterValueDefinitions doc) pv ->
  firstContaining index' (parameterValueDefinitions doc) pv ->
  getReferenceSiteInfo (contextAt doc tpl index) includeDefinition =
  getReferenceSiteInfo (contextAt doc tpl index') includeDefinition'.
Proof.
  intros Hfirst Hfirst'.
  rewrite (getReferenceSiteInfo_first (contextAt doc tpl index)
             includeDefinition tpl pv eq_refl Hfirst).
  rewrite (getReferenceSiteInfo_first (contextAt doc tpl index')
             includeDefinition' tpl pv eq_refl Hfirst').
  reflexivity.
Qed.

(* ================================================================== *)
(** * Part VIII: the further properties on the samples                 *)
(* ================================================================== *)

Lemma mixedSource_names_distinct : NoDup (ownPropertyNames mixedSource).
Proof.
  unfold ownPropertyNames, mixedSource. cbn [List.map fst].
  repeat constructor; cbn [In]; intros H;
    repeat (destruct H as [H | H]; [discriminate H|]); exact H.
Defined.

Lemma vnetSource_names_distinct : NoDup (ownPropertyNames vnetSource).
Proof. repeat constructor. intros []. Defined.

Lemma matchesApiVersion_iff_witness :
  matchesApiVersion vnetBodyLine = true /\
  matchesApiVersion
    ("  " ++ apiVersionKey ++ " " ++ utf8 8232 ++ utf8 65279 ++ ": null") = true.
Proof.
  split.
  - apply (proj2 (matchesApiVersion_iff vnetBodyLine)).
    exists "{ ", EmptyString, (" " ++ dquote ++ "2020-01-01" ++ dquote ++ " }").
    split; [reflexivity|]. exists []. split; [constructor | reflexivity].
  - apply (proj2 (matchesApiVersion_iff _)).
    exists "  ", (" " ++ utf8 8232 ++ utf8 65279), " null".
    split; [reflexivity|]. exists [32; 8232; 65279]%N.
    split; [|reflexivity].
    repeat (apply Forall_cons; [cbn; repeat (first [left; reflexivity | right])|]).
    apply Forall_nil.
Defined.

Lemma convertSnippet_warnings_witness :
  In (likeResourceWarning "arm-nsg") (snd (convertSnippet "arm-nsg" mistaggedRecord)) /\
  snd (convertSnippet "arm-vnet" vnetRecord) = [].
Proof.
  destruct (convertSnippet_warnings "arm-nsg" mistaggedRecord)
    as (_ & _ & [_ Hlike] & _ & _).
  destruct (convertSnippet_warnings "arm-vnet" vnetRecord)
    as (_ & _ & _ & _ & [_ Hquiet]).
  split.
  - apply Hlike. split; [discriminate | reflexivity].
  - apply Hquiet. exists "resources". split; [reflexivity|].
    split; reflexivity.
Defined.

Lemma loaded_map_is_well_keyed_witness :
  NoDup (Map_keys (List.map specifiedSnippet (filter notReserved mixedSource))).
Proof.
  exact (proj1 (loaded_map_is_well_keyed sampleStrip mixedParse
                  (Returns "mixed")
                  (List.map specifiedSnippet (filter notReserved mixedSource))
                  eq_refl)).
Defined.

Lemma mistagged_resource_is_warned_and_served_witness :
  let started := getSnippets "parameterValues" newSnippetManager in
  let loaded :=
    fileReadCompletes sampleStrip mixedParse (awaits (fst started))
      (Returns "mixed") (snd started) in
  In (likeResourceWarning "arm-nsg") (warningsShown loaded) /\
  exists result,
    poll (fst started) loaded = Fulfilled result /\
    In (snd (specifiedSnippet ("arm-nsg", mistaggedRecord))) result.
Proof.
  apply (mistagged_resource_is_warned_and_served sampleStrip mixedParse
           newSnippetManager "mixed" mixedSource "arm-nsg" mistaggedRecord
           "parameterValues").
  - reflexivity.
  - reflexivity.
  - exact mixedSource_names_distinct.
  - right. right. left. reflexivity.
  - reflexivity.
  - reflexivity.
  - discriminate.
  - reflexivity.
Defined.

Lemma untagged_record_is_kept_but_never_served_witness :
  let first := getSnippets "parameterValues" newSnippetManager in
  let second :=
    getSnippetsAsCompletionItems sampleExtensionName "parameterValues"
      (language.mkSpan 3 0) None true (snd first) in
  let loaded :=
    fileReadCompletes sampleStrip mixedParse (awaits (fst first))
      (Returns "mixed") (snd second) in
  In (noContextWarning "new-parameter-value") (warningsShown loaded) /\
  exists items,
    poll (fst second) loaded = Fulfilled items /\
    forall item, In item items ->
      Completion.snippetName item <> "new-parameter-value".
Proof.
  destruct (untagged_record_is_kept_but_never_served sampleStrip mixedParse
              sampleExtensionName newSnippetManager "mixed" mixedSource
              "new-parameter-value" untaggedRecord "parameterValues"
              (language.mkSpan 3 0) None true
              eq_refl eq_refl mixedSource_names_distinct
              (or_intror (or_intror (or_intror (or_introl eq_refl))))
              eq_refl eq_refl)
    as (Hwarned & _ & _ & Hitems).
  split; [exact Hwarned | exact Hitems].
Defined.

Lemma completion_items_mirror_snippets_witness :
  exists snippets items,
    poll (fst (getSnippets "resources" waitingManager)) loadedManager
      = Fulfilled snippets /\
    poll (fst (getSnippetsAsCompletionItems sampleExtensionName "resources"
                 (language.mkSpan 3 0) None true waitingManager)) loadedManager
      = Fulfilled items /\
    List.map Completion.insertText items = List.map insertText snippets /\
    List.map Completion.snippetName items = List.map name snippets.
Proof.
  destruct (completion_items_mirror_snippets sampleExtensionName "resources"
              (language.mkSpan 3 0) None true waitingManager waitingManager
              loadedManager [("arm-vnet", vnetSnippet)] eq_refl eq_refl)
    as (snippets & items & Hs & Hi & _ & Htext & _ & _ & Hname).
  exists snippets, items. repeat split; auto.
  apply Hname. intros k s [[= <- <-] | []]. reflexivity.
Defined.

Lemma getSnippets_surfaces_load_failure_witness :
  let started := getSnippets "resources" newSnippetManager in
  poll (fst started)
    (fileReadCompletes sampleStrip sampleParse (awaits (fst started))
       (Returns "malformed") (snd started))
  = Rejected (SyntaxError "Unexpected token") /\
  poll (fst started)
    (fileReadCompletes sampleStrip sampleParse (awaits (fst started))
       (Throws (IOError "ENOENT")) (snd started))
  = Rejected (IOError "ENOENT").
Proof.
  split.
  - exact (proj1 (getSnippets_surfaces_load_failure sampleStrip sampleParse
                    "resources" newSnippetManager (Returns "malformed")
                    (SyntaxError "Unexpected token") eq_refl
                    (or_intror (ex_intro _ "malformed" (conj eq_refl eq_refl))))).
  - exact (proj1 (getSnippets_surfaces_load_failure sampleStrip sampleParse
                    "resources" newSnippetManager (Throws (IOError "ENOENT"))
                    (IOError "ENOENT") eq_refl (or_introl eq_refl))).
Defined.

Lemma quote_mode_quotes_once_witness :
  exists quoted,
    poll (fst (getSnippetsAsCompletionItems sampleExtensionName "resources"
                 (language.mkSpan 3 0) None true waitingManager)) loadedManager
      = Fulfilled quoted /\
    forall item, In item quoted ->
      startsWith (Completion.label item) ("{" ++ dquote) = true.
Proof.
  destruct (quote_mode_quotes_once sampleExtensionName "resources"
              (language.mkSpan 3 0) None waitingManager loadedManager
              [("arm-vnet", vnetSnippet)] eq_refl)
    as (quoted & unquoted & Hq & _ & Hlabel & _).
  exists quoted. split; [exact Hq | exact Hlabel].
Defined.

Lemma load_is_quiet_iff_records_consistent_witness :
  warningsShown
    (fileReadCompletes sampleStrip sampleParse (fst (getMap newSnippetManager))
       (Returns "vnet") (snd (getMap newSnippetManager))) = [] /\
  warningsShown
    (fileReadCompletes sampleStrip mixedParse (fst (getMap newSnippetManager))
       (Returns "mixed") (snd (getMap newSnippetManager))) <> [].
Proof.
  split.
  - apply (proj2 (load_is_quiet_iff_records_consistent sampleStrip sampleParse
                    newSnippetManager "vnet" vnetSource eq_refl eq_refl
                    vnetSource_names_distinct)).
    intros n d [[= <- <-] | []] _.
    exists "resources". split; [reflexivity|]. split; reflexivity.
  - intros Hquiet.
    destruct (proj1 (load_is_quiet_iff_records_consistent sampleStrip mixedParse
                       newSnippetManager "mixed" mixedSource eq_refl eq_refl
                       mixedSource_names_distinct)
                Hquiet "new-parameter-value" untaggedRecord
                (or_intror (or_intror (or_intror (or_introl eq_refl)))) eq_refl)
      as (c & Hc & _).
    discriminate Hc.
Defined.

Lemma getReferenceSiteInfo_site_is_sound_witness :
  exists site,
    getReferenceSiteInfo (sampleContext 20) true = Some site /\
    referenceKind site = reference /\
    referenceDocument site = sampleParameters /\
    definitionDocument site = sampleTemplate.
Proof.
  eexists. split; [reflexivity|].
  destruct (getReferenceSiteInfo_site_is_sound string (sampleContext 20) true _
              eq_refl) as (Hkind & Hdoc & Htpl & _).
  split; [exact Hkind|]. split; [exact Hdoc|].
  exact (f_equal (fun linked => match linked with
                                | Some tpl => tpl
                                | None => sampleTemplate
                                end) (eq_sym Htpl)).
Defined.

Lemma getReferenceSiteInfo_same_within_name_witness :
  getReferenceSiteInfo (sampleContext 16) true =
  getReferenceSiteInfo (sampleContext 26) false.
Proof.
  apply (getReferenceSiteInfo_same_within_name string sampleParameters
           sampleTemplate 16 26 {| nameValue := locationName |} true false);
    exists [], [ {| nameValue := orphanName |} ];
    (split; [reflexivity|]); (split; [constructor | reflexivity]).
Defined.
